(** * A shallow embedding of the namespace-aware logger ([src/index.js])

    The development follows the source file top to bottom: the JavaScript
    values the logger handles, the process environment it reads at load
    time, the process-wide registry of configurations, the message record
    built per log call, the console and logfile sinks, and the exported
    factory.  The theorems at the end state what the implementation does. *)

From Stdlib Require Import Ascii.
From stdpp Require Import base numbers strings list gmap fin_maps pretty.

Set Warnings "-register-all".
Open Scope Z_scope.

(** ** JavaScript values *)

(** Primitive values: what a configuration property holds and what a log
    argument is once it has been serialized.  Numbers are restricted to
    integers below 10^21 in absolute value, which JavaScript prints as
    their decimal digits. *)
Inductive value :=
  | VUndefined
  | VNull
  | VBool (b : bool)
  | VNum (n : Z)
  | VStr (s : string).

Global Instance value_eq_dec : EqDecision value.
Proof. solve_decision. Defined.

(** A log argument: a primitive, an array, or a plain object (one whose
    [toString] is that of [Object.prototype]).  An object that is not an
    array is represented by the text
    [util.inspect(o, { depth: null, showProxy: true, showHidden: true })]
    prints for it. *)
Inductive arg :=
  | APrim (v : value)
  | AArray (elems : list arg)
  | AObject (inspected : string).

(** An object with primitive-valued own properties, as a configuration is. *)
Abbreviation obj := (gmap string value).

(** Property read: a missing property reads as [undefined]. *)
Definition get (o : obj) (k : string) : value := default VUndefined (o !! k).

(** ToBoolean. *)
Definition truthy (v : value) : bool :=
  match v with
  | VUndefined | VNull => false
  | VBool b => b
  | VNum n => negb (n =? 0)
  | VStr s => negb (bool_decide (s = ""))
  end.

(** ToString on primitives (template literals, [%s], [String(v)]). *)
Definition primToString (v : value) : string :=
  match v with
  | VUndefined => "undefined"
  | VNull => "null"
  | VBool true => "true"
  | VBool false => "false"
  | VNum n => pretty n
  | VStr s => s
  end.

(** ** Strings *)

Module Str.

(** [s.repeat(n)] *)
Fixpoint repeat (s : string) (n : nat) : string :=
  match n with
  | O => ""
  | S k => s +:+ repeat s k
  end.

(** Join already-converted strings with a separator. *)
Fixpoint join (sep : string) (l : list string) : string :=
  match l with
  | [] => ""
  | [x] => x
  | x :: l' => x +:+ sep +:+ join sep l'
  end.

(** [s.length] counts UTF-16 code units; the strings here are UTF-8 byte
    strings.  A continuation byte adds nothing, the lead byte of a
    four-byte sequence stands for a surrogate pair. *)
Definition units (c : ascii) : nat :=
  let n := nat_of_ascii c in
  if (n <? 128)%nat then 1%nat
  else if (n <? 192)%nat then 0%nat
  else if (n <? 240)%nat then 1%nat
  else 2%nat.

Fixpoint length (s : string) : nat :=
  match s with
  | EmptyString => 0%nat
  | String c s' => (units c + length s')%nat
  end.

Definition of_rev (cur : list ascii) : string :=
  String.string_of_list_ascii (rev cur).

(** [s.split(sep)] for a non-empty separator.  [skip] counts the
    characters of a separator just matched that are still to be passed
    over, [cur] holds the current piece, last character first. *)
Fixpoint split_go (sep : string) (skip : nat) (cur : list ascii) (s : string)
  : list string :=
  match s with
  | EmptyString => [of_rev cur]
  | String c s' =>
      match skip with
      | S k => split_go sep k cur s'
      | O =>
          if String.prefix sep s
          then of_rev cur :: split_go sep (String.length sep - 1) [] s'
          else split_go sep O (c :: cur) s'
      end
  end.

Definition split (sep s : string) : list string := split_go sep O [] s.

(** [s.replace(new RegExp(pat, 'g'), rep)] for a literal pattern. *)
Definition replaceAll (pat rep s : string) : string :=
  join rep (split pat s).

End Str.

Definition nl : string := String "010"%char "".

(** ** Arguments of a log call *)

(** [_.isObjectLike] *)
Definition isObjectLike (a : arg) : bool :=
  match a with
  | APrim _ => false
  | AArray _ | AObject _ => true
  end.

(** [null] and [undefined] elements are joined as empty strings. *)
Definition isNullish (a : arg) : bool :=
  match a with
  | APrim VUndefined | APrim VNull => true
  | _ => false
  end.

(** ToString on any argument: an array is its elements joined with commas,
    another object is ["[object Object]"]. *)
Fixpoint toString (a : arg) : string :=
  match a with
  | APrim v => primToString v
  | AArray l =>
      Str.join "," (map (fun x => if isNullish x then "" else toString x) l)
  | AObject _ => "[object Object]"
  end.

(** [Array.prototype.join] *)
Definition arrayJoin (sep : string) (l : list arg) : string :=
  Str.join sep (map (fun x => if isNullish x then "" else toString x) l).

Definition truthyArg (a : arg) : bool :=
  match a with
  | APrim v => truthy v
  | AArray _ | AObject _ => true
  end.

(** [a === s] for a string [s]. *)
Definition strictEqString (a : arg) (s : string) : bool :=
  match a with
  | APrim (VStr t) => bool_decide (t = s)
  | _ => false
  end.

(** ** The environment read at load time *)

(** What the module reads from the process, the platform and the
    filesystem when it is loaded, and the library functions whose result
    depends on them. *)
Record Env := {
  (** [os.EOL] *)
  EOL : string;
  (** [require('@bengennaria/is-env')('debug')] and [('nolog')] *)
  isDebug : bool;
  isNolog : bool;
  (** [GetElectronProcessType()] and [_.startCase] of it *)
  contextType : string;
  contextLabel : string;
  (** [__filename] of the logger module *)
  thisModuleFilename : string;
  (** [rootPath()] and the [name] of the manifest found from there *)
  toplevelModuleDirectory : string;
  toplevelModulePackageName : string;
  (** [path.join(new Appdirectory(label).userLogs(), label + '.log')] *)
  logfilePath : string;
  (** [readPkgUp.sync({ cwd })]: the path of the nearest enclosing manifest
      and its [name], or nothing when there is none *)
  readPkgUp : string -> option (string * string);
  (** [path.basename] and [path.dirname] *)
  basename : string -> string;
  dirname : string -> string;
  (** whether [fs.mkdirp] of a directory succeeds *)
  mkdirp : string -> bool;
  (** whether the stream [fs.createWriteStream(file, { flags: 'a' })]
      opens (it does not on a directory or without the right to write) *)
  streamOpens : string -> bool
}.

Definition isBrowserContext (env : Env) : bool :=
  bool_decide (contextType env = "browser").

Definition defaultLoggerOptions (env : Env) : obj :=
  <["write" := VBool false]>
    (<["timestamp" := VBool true]>
       (<["namespace" := VStr ""]>
          (<["logfile" := VStr (logfilePath env)]> ∅))).

(** ** Log levels and their style tables *)

Inductive level := LDebug | LLog | LInfo | LWarn | LError.

Global Instance level_eq_dec : EqDecision level.
Proof. solve_decision. Defined.

(** [_.toUpper(loglevel)] *)
Definition toUpper (l : level) : string :=
  match l with
  | LDebug => "DEBUG"
  | LLog => "LOG"
  | LInfo => "INFO"
  | LWarn => "WARN"
  | LError => "ERROR"
  end.

Definition colorDictionary (l : level) : string :=
  match l with
  | LDebug => "cyan"
  | LLog => "cyan"
  | LInfo => "magenta"
  | LWarn => "yellow"
  | LError => "red"
  end.

Definition loglevelRgbDictionary (l : level) : list Z :=
  match l with
  | LDebug => [100; 100; 100]
  | LLog => [0; 128; 255]
  | LInfo => [255; 100; 150]
  | LWarn => [200; 100; 30]
  | LError => [230; 70; 50]
  end.

Definition loglevelEmojiDictionary (l : level) : string :=
  match l with
  | LDebug => "🔧"
  | LLog => "📝"
  | LInfo => "ℹ️ "
  | LWarn => "⚠️ "
  | LError => "🚨"
  end.

(** ** Process state *)

(** A line printed on the console.  The styling of a message line is kept
    as data: [ConsoleTty] records the chalk colour and whether the
    namespace is underlined, [ConsoleBrowser] the rgb triple its [%c]
    directives use. *)
Inductive consoleEntry :=
  | ConsoleTty (emoji color : string) (underline : bool)
      (namespace title body timestamp : string)
  | ConsoleBrowser (emoji rgb namespace title body timestamp : string)
  | ConsoleError (args : list string).

(** The part of the process the logger reads and writes: the objects it
    shares with its callers (configurations are passed and stored by
    reference), the registry [global[thisModulePackageName].configurations]
    (a [Map] from requiring file to configuration, in insertion order;
    absent until the first logger is created), the files, the console. *)
Record Process := mkProcess {
  heap : list obj;
  configurations : option (list (string * nat));
  files : gmap string string;
  console : list consoleEntry
}.

(** One loaded instance of the logger module: the file name of the module
    that required it ([module.parent.filename], when there is one) and
    [module.exports.configuration]. *)
Record LoggerModule := mkModule {
  parentFilename : option string;
  configuration : option nat
}.

Inductive exn := TypeError.

(** How a call ends: it returns a value or throws. *)
Inductive outcome (A : Type) :=
  | Return (a : A)
  | Throw (e : exn).
Global Arguments Return {A} a.
Global Arguments Throw {A} e.

Abbreviation completion := (outcome unit).
Abbreviation Normal := (Return tt).

Definition initialProcess : Process := mkProcess [] None ∅ [].

Definition deref (σ : Process) (l : nat) : obj := default ∅ (heap σ !! l).

Definition store (l : nat) (o : obj) (σ : Process) : Process :=
  mkProcess (<[l := o]> (heap σ)) (configurations σ) (files σ) (console σ).

(** A new object; its reference is the next free index. *)
Definition alloc (o : obj) (σ : Process) : nat * Process :=
  (length (heap σ),
   mkProcess (heap σ ++ [o]) (configurations σ) (files σ) (console σ)).

Definition print (e : consoleEntry) (σ : Process) : Process :=
  mkProcess (heap σ) (configurations σ) (files σ) (console σ ++ [e]).

(** A write stream opened with [{ flags: 'a' }]. *)
Definition append (p : string) (chunk : string) (σ : Process) : Process :=
  mkProcess (heap σ) (configurations σ)
    (<[p := default "" (files σ !! p) +:+ chunk]> (files σ)) (console σ).

(** ** lodash *)

(** [_.defaultsDeep(object, source)] on objects whose property values are
    primitives: every property of [source] that is [undefined] in [object]
    is assigned; [object] is changed in place and returned. *)
Definition defaultsDeepAt (ov sv : option value) : option value :=
  match ov, sv with
  | Some VUndefined, Some s => Some s
  | Some v, _ => Some v
  | None, _ => sv
  end.

Definition defaultsDeep (object source : obj) : obj :=
  merge defaultsDeepAt object source.

(** ** The registry *)

(** [Map.prototype.set]: a known key keeps its place, a new key goes last. *)
Fixpoint mapSet (k : string) (v : nat) (m : list (string * nat))
  : list (string * nat) :=
  match m with
  | [] => [(k, v)]
  | (k', v') :: m' =>
      if decide (k' = k) then (k, v) :: m' else (k', v') :: mapSet k v m'
  end.

(** [_.map(Array.from(configurations.values()), 'namespace')] *)
Definition namespacesList (σ : Process) (m : list (string * nat)) : list value :=
  map (fun e => get (deref σ (snd e)) "namespace") m.

(** [Array.prototype.indexOf] *)
Fixpoint indexOfFrom (i : Z) (l : list value) (x : value) : Z :=
  match l with
  | [] => -1
  | y :: l' => if decide (y = x) then i else indexOfFrom (i + 1) l' x
  end.

Definition indexOf (l : list value) (x : value) : Z := indexOfFrom 0 l x.

(** ** Logfile *)

(** [writeMessageToFile(message)].  [now] is what [getCurrentTimestamp()]
    returns, taken to be the same for every line of one message.  The
    directory is created and the lines are appended at once; the source
    queues both.  A failure of [fs.mkdirp] is reported with
    [console.error] (the error object it passes last is left out).  A
    stream that does not open writes nothing: the source has no listener
    for its ['error'] event, which surfaces after the call. *)
Definition writeMessageToFile (env : Env) (m : LoggerModule) (now : string)
    (message : string) (σ : Process) : Process * completion :=
  match configuration m with
  | None => (σ, Throw TypeError)
  | Some c =>
      let configuration := deref σ c in
      let logfile := get configuration "logfile" in
      if negb (truthy (get configuration "write")) || isNolog env
      then (σ, Normal)
      else
        match logfile with
        | VStr logfile =>
            if mkdirp env (dirname env logfile)
            then
              if streamOpens env logfile
              then
                (append logfile
                   (String.concat ""
                      (map
                         (fun line => "[" +:+ now +:+ "] " +:+ line +:+ EOL env)
                         (Str.split (EOL env) message))) σ,
                 Normal)
              else (σ, Normal)
            else
              (print (ConsoleError
                        ["logger"; "appendMessageToFile"; "fs.mkdirp"]) σ,
               Normal)
        | _ => (σ, Throw TypeError)
        end
  end.

Definition headerText (env : Env) (now : string) : string :=
  EOL env +:+ "LOG STARTED (" +:+ now +:+ ")" +:+ EOL env +:+ Str.repeat "▔" 80.

(** [writeHeaderToFile()] *)
Definition writeHeaderToFile (env : Env) (m : LoggerModule) (now : string)
    (σ : Process) : Process * completion :=
  writeMessageToFile env m now (headerText env now) σ.

(** ** The message record *)

Record LoggerMessage := mkLoggerMessage {
  loglevel : string;
  emoji : string;
  rgb : string;
  chalkstyle : string;
  namespace : value;
  thread : Z;
  title : arg;
  body : string;
  timestamp : string
}.

(** The column at which the text of a message starts. *)
Definition indentOf (env : Env) (namespace : value) : nat :=
  if negb (isBrowserContext env)
  then Str.length ("i [" +:+ primToString namespace +:+ "] ")
  else Str.length ("i  [" +:+ primToString namespace +:+ "]  ").

(** The text an array or another object is replaced with. *)
Definition serialize (env : Env) (indent : nat) (a : arg) : string :=
  match a with
  | AArray elems =>
      EOL env +:+ Str.repeat " " indent +:+ "[" +:+ EOL env
        +:+ Str.repeat " " (indent + 2)
        +:+ arrayJoin ("," +:+ EOL env +:+ Str.repeat " " (indent + 2)) elems
        +:+ EOL env +:+ Str.repeat " " indent +:+ "]"
  | AObject inspected =>
      Str.replaceAll (EOL env) (EOL env +:+ Str.repeat " " indent)
        (EOL env +:+ inspected)
  | APrim v => primToString v
  end.

(** One turn of the loop over the indices of [message]: an object-like
    element is replaced with its text and the element before it with its
    string.  At index 0 the source assigns the property ["-1"], which is no
    element of the array. *)
Definition massageAt (env : Env) (indent : nat) (message : list arg)
    (index : nat) : list arg :=
  match message !! index with
  | Some a =>
      if isObjectLike a
      then
        let message := <[index := APrim (VStr (serialize env indent a))]> message in
        match index with
        | O => message
        | S before =>
            match message !! before with
            | Some b => <[before := APrim (VStr (toString b))]> message
            | None => message
            end
        end
      else message
  | None => message
  end.

Definition massage (env : Env) (indent : nat) (message : list arg) : list arg :=
  foldl (massageAt env indent) message (seq 0 (length message)).

(** [new LoggerMessage(loglevel, message)].  [elapsed] is the text
    [`${(present() - initialTimestamp).toFixed(4)} ms`] the constructor
    computes from the high-resolution clock. *)
Definition newLoggerMessage (env : Env) (σ : Process) (m : LoggerModule)
    (lvl : level) (message : list arg) (elapsed : string)
  : outcome LoggerMessage :=
  match configuration m with
  | None => Throw TypeError
  | Some c =>
      let configuration := deref σ c in
      let namespace := get configuration "namespace" in
      match configurations σ with
      | None => Throw TypeError
      | Some allConfigurations =>
          let namespacesList := namespacesList σ allConfigurations in
          let namespaceIndex := indexOf namespacesList namespace in
          let thread := Z.land namespaceIndex 1 in
          let indent := indentOf env namespace in
          let message := massage env indent message in
          let '(title, message) :=
            if (1 <? length message)%nat
            then (default (APrim VUndefined) (head message), tail message)
            else (APrim VUndefined, message) in
          let body := arrayJoin " " message in
          let title := if negb (truthyArg title) then APrim (VStr body) else title in
          let body := if strictEqString title body then "" else body in
          let timestamp :=
            if truthy (get configuration "timestamp") then elapsed else "" in
          Return
            (mkLoggerMessage (toUpper lvl) (loglevelEmojiDictionary lvl)
               (Str.join "," (map pretty (loglevelRgbDictionary lvl)))
               (colorDictionary lvl) namespace thread title body timestamp)
      end
  end.

(** ** Sinks *)

(** [util.format('[%s] [%s] [%s] %s %s', ...)], the line for the logfile. *)
Definition fileLine (env : Env) (lm : LoggerMessage) : string :=
  "[" +:+ loglevel lm +:+ "] [" +:+ contextLabel env +:+ "] ["
    +:+ primToString (namespace lm) +:+ "] " +:+ toString (title lm)
    +:+ " " +:+ body lm.

Definition printToBrowserConsole (env : Env) (m : LoggerModule) (lvl : level)
    (message : list arg) (now elapsed : string) (σ : Process)
  : Process * completion :=
  if (length message =? 0)%nat then (σ, Normal)
  else
    match newLoggerMessage env σ m lvl message elapsed with
    | Throw e => (σ, Throw e)
    | Return lm =>
        writeMessageToFile env m now (fileLine env lm)
          (print (ConsoleBrowser (emoji lm) (rgb lm)
                    (primToString (namespace lm)) (toString (title lm))
                    (body lm) (timestamp lm)) σ)
    end.

Definition printToTty (env : Env) (m : LoggerModule) (lvl : level)
    (message : list arg) (now elapsed : string) (σ : Process)
  : Process * completion :=
  if (length message =? 0)%nat then (σ, Normal)
  else
    match newLoggerMessage env σ m lvl message elapsed with
    | Throw e => (σ, Throw e)
    | Return lm =>
        writeMessageToFile env m now (fileLine env lm)
          (print (ConsoleTty (emoji lm) (chalkstyle lm)
                    (thread lm =? 0)
                    (primToString (namespace lm)) (toString (title lm))
                    (body lm) (timestamp lm)) σ)
    end.

Definition printToAny (env : Env) :=
  if bool_decide (contextType env = "browser")
  then printToBrowserConsole env
  else printToTty env.

(** ** The logger instance *)

Definition getConfiguration (m : LoggerModule) : option nat := configuration m.

(** [setConfiguration(options)]: the object passed becomes the
    configuration, after the properties it lacks are filled in from the
    current one.  Without an argument lodash starts from a new object. *)
Definition setConfiguration (m : LoggerModule) (options : option nat)
    (σ : Process) : LoggerModule * Process :=
  let '(o, σ) :=
    match options with
    | Some o => (o, σ)
    | None => alloc ∅ σ
    end in
  let σ :=
    match configuration m with
    | Some c => store o (defaultsDeep (deref σ o) (deref σ c)) σ
    | None => σ
    end in
  (mkModule (parentFilename m) (Some o), σ).

Module loggerInstance.

Definition debug (env : Env) (m : LoggerModule) (arguments : list arg)
    (now elapsed : string) (σ : Process) : Process * completion :=
  if isDebug env then printToAny env m LDebug arguments now elapsed σ
  else (σ, Normal).

Definition log (env : Env) (m : LoggerModule) (arguments : list arg)
    (now elapsed : string) (σ : Process) : Process * completion :=
  printToAny env m LLog arguments now elapsed σ.

Definition info (env : Env) (m : LoggerModule) (arguments : list arg)
    (now elapsed : string) (σ : Process) : Process * completion :=
  printToAny env m LInfo arguments now elapsed σ.

Definition warn (env : Env) (m : LoggerModule) (arguments : list arg)
    (now elapsed : string) (σ : Process) : Process * completion :=
  printToAny env m LWarn arguments now elapsed σ.

Definition error (env : Env) (m : LoggerModule) (arguments : list arg)
    (now elapsed : string) (σ : Process) : Process * completion :=
  printToAny env m LError arguments now elapsed σ.

End loggerInstance.

(** The method a level names. *)
Definition logMethod (lvl : level) :=
  match lvl with
  | LDebug => loggerInstance.debug
  | LLog => loggerInstance.log
  | LInfo => loggerInstance.info
  | LWarn => loggerInstance.warn
  | LError => loggerInstance.error
  end.

(** ** The exported factory *)

(** [module.parent && module.parent.filename ? module.parent.filename
    : module.filename] *)
Definition requiringModuleFilePath (env : Env) (m : LoggerModule) : string :=
  match parentFilename m with
  | Some filename =>
      if truthy (VStr filename) then filename else thisModuleFilename env
  | None => thisModuleFilename env
  end.

Definition localNamespace (env : Env) (requiringModuleFileName : string) : string :=
  toplevelModulePackageName env +:+ "|…/" +:+ requiringModuleFileName.

Definition thirdPartyNamespace (env : Env) (requiringModuleName : string) : string :=
  toplevelModulePackageName env +:+ "|" +:+ requiringModuleName.

Definition setConfigurations (r : list (string * nat)) (σ : Process) : Process :=
  mkProcess (heap σ) (Some r) (files σ) (console σ).

(** [module.exports = (options = {}) => { ... }].  [options] is the object
    the caller passes, by reference; without one a new object is made.
    The result is the module with its configuration attached, the process,
    and how the call ended (it returns [loggerInstance]). *)
Definition createLogger (env : Env) (m : LoggerModule) (options : option nat)
    (now : string) (σ : Process) : LoggerModule * Process * completion :=
  let '(configuration, σ) :=
    match options with
    | Some o => (o, σ)
    | None => alloc ∅ σ
    end in
  (* Merge in default options *)
  let σ :=
    store configuration
      (defaultsDeep (deref σ configuration) (defaultLoggerOptions env)) σ in
  (* Get requiring modules' name *)
  let requiringModuleFilePath := requiringModuleFilePath env m in
  let requiringModuleFileName := basename env requiringModuleFilePath in
  match readPkgUp env requiringModuleFilePath with
  | None => (m, σ, Throw TypeError)
  | Some (manifest, requiringModuleName) =>
      let requiringModuleDirectory := dirname env manifest in
      let isLocalModule :=
        negb (bool_decide
                (requiringModuleDirectory ≠ toplevelModuleDirectory env)) in
      (* Format LOCAL Module Namespace (default) *)
      let σ :=
        store configuration
          (<["namespace" := VStr (localNamespace env requiringModuleFileName)]>
             (deref σ configuration)) σ in
      (* Format THIRD-PARTY Module Namespace *)
      let σ :=
        if negb isLocalModule
        then
          store configuration
            (<["namespace" := VStr (thirdPartyNamespace env requiringModuleName)]>
               (deref σ configuration)) σ
        else σ in
      (* Attach configuration as property 'configuration' to module.exports *)
      let m := mkModule (parentFilename m) (Some configuration) in
      (* Check if 'global[@bengennaria/logger]' exists *)
      let σ :=
        match configurations σ with
        | None => setConfigurations [] σ
        | Some _ => σ
        end in
      (* First required Logger instance: Add new header to Logfile *)
      let '(σ, header) :=
        if (length (default [] (configurations σ)) =? 1)%nat
        then writeHeaderToFile env m now σ
        else (σ, Normal) in
      match header with
      | Throw e => (m, σ, Throw e)
      | Return _ =>
          (* Add configuration with filename as key *)
          (m,
           setConfigurations
             (mapSet requiringModuleFilePath configuration
                (default [] (configurations σ))) σ,
           Normal)
      end
  end.

(** ** An environment for examples *)

(** A POSIX platform with the application [my-app] in [/app] and the
    package [lodash] below its [node_modules]. *)
Module Posix.

(** [path.basename] and [path.dirname] on paths without a trailing
    slash. *)
Definition path_basename (p : string) : string :=
  List.last (Str.split "/" p) "".

Definition path_dirname (p : string) : string :=
  let d := Str.join "/" (removelast (Str.split "/" p)) in
  if bool_decide (d = "")
  then if String.prefix "/" p then "/" else "."
  else d.

Definition manifestOf (cwd : string) : option (string * string) :=
  if String.prefix "/app/node_modules/lodash/" cwd
  then Some ("/app/node_modules/lodash/package.json", "lodash")
  else if String.prefix "/app/" cwd
  then Some ("/app/package.json", "my-app")
  else None.

Definition env (isDebug isNolog : bool) : Env :=
  {| EOL := String "010"%char "";
     isDebug := isDebug;
     isNolog := isNolog;
     contextType := "renderer";
     contextLabel := "Renderer";
     thisModuleFilename := "/app/node_modules/@bengennaria/logger/index.js";
     toplevelModuleDirectory := "/app";
     toplevelModulePackageName := "my-app";
     logfilePath := "/home/user/.config/my-app/my-app.log";
     readPkgUp := manifestOf;
     basename := path_basename;
     dirname := path_dirname;
     mkdirp := fun _ => true;
     streamOpens := fun _ => true |}.

(** The logger module as loaded by the file [filename]. *)
Definition requiredBy (filename : string) : LoggerModule :=
  mkModule (Some filename) None.

End Posix.

(** ** Callers *)

(** One call of a log method: the level, the arguments, and what the two
    clocks read during the call. *)
Record logCall := mkCall {
  callLevel : level;
  callArguments : list arg;
  callNow : string;
  callElapsed : string
}.

(** A caller that makes the calls one after the other; an exception ends
    the sequence. *)
Fixpoint runCalls (env : Env) (m : LoggerModule) (calls : list logCall)
    (σ : Process) : Process * completion :=
  match calls with
  | [] => (σ, Normal)
  | c :: calls =>
      match logMethod (callLevel c) env m (callArguments c) (callNow c)
              (callElapsed c) σ with
      | (σ, Return _) => runCalls env m calls σ
      | (σ, Throw e) => (σ, Throw e)
      end
  end.

(** ** The specification's notions *)

(** "Deep-merged onto, caller-supplied values win": a property the caller
    supplies keeps the caller's value, any other comes from the base. *)
Definition mergeOver (supplied base : obj) : obj := supplied ∪ base.

(** An options object supplies a value for each property it has. *)
Definition suppliesValues (o : obj) : Prop :=
  map_Forall (fun _ v => v ≠ VUndefined) o.

(** Title and body as the specification words them, from the serialized
    arguments: with more than one argument the first is the title and the
    others, joined with single spaces, the body; one argument is the title
    and the body is empty; a body identical to the title is cleared. *)
Definition specTitleBody (serialized : list arg) : arg * string :=
  match serialized with
  | [] => (APrim (VStr ""), "")
  | [only] => (only, "")
  | first :: others =>
      let body := arrayJoin " " others in
      (first, if strictEqString first body then "" else body)
  end.

(** The first index at which a list holds [x]. *)
Definition firstAt (l : list value) (x : value) (i : nat) : Prop :=
  l !! i = Some x ∧ ∀ j : nat, (j < i)%nat → l !! j ≠ Some x.

(** What a log call leaves alone when the file sink is gated off. *)
Definition sameButConsole (σ σ' : Process) : Prop :=
  heap σ' = heap σ ∧ configurations σ' = configurations σ
  ∧ files σ' = files σ.

(** ** Scenarios *)

(** A caller that passes an object literal: the object is made, then
    handed over. *)
Definition createLoggerWith (env : Env) (m : LoggerModule) (options : obj)
    (now : string) (σ : Process) : LoggerModule * Process * completion :=
  let '(o, σ) := alloc options σ in
  createLogger env m (Some o) now σ.

Module Scenario.

Definition env : Env := Posix.env false false.

Definition logfile : string := "/home/user/.config/my-app/my-app.log".

Definition writeOn : obj := <["write" := VBool true]> ∅.

(** A new process; [/app/src/main.js] creates the first logger, with
    [{ write: true }], and logs ["hello"]; then [/app/src/other.js]
    creates the second one. *)
Definition first : LoggerModule * Process * completion :=
  createLoggerWith env (Posix.requiredBy "/app/src/main.js") writeOn "T0"
    initialProcess.

Definition hello : Process * completion :=
  loggerInstance.log env first.1.1 [APrim (VStr "hello")] "T1" "" first.1.2.

Definition second : LoggerModule * Process * completion :=
  createLoggerWith env (Posix.requiredBy "/app/src/other.js") writeOn "T2"
    hello.1.

(** Instead, [/app/src/main.js] creates its logger a second and a third
    time. *)
Definition again : LoggerModule * Process * completion :=
  createLoggerWith env first.1.1 writeOn "T2" hello.1.

Definition onceMore : LoggerModule * Process * completion :=
  createLoggerWith env again.1.1 writeOn "T3" again.1.2.

Definition helloLine : string :=
  "[T1] [LOG] [Renderer] [my-app|…/main.js] hello " +:+ nl.

Definition headerLines (now : string) : string :=
  "[" +:+ now +:+ "] " +:+ nl
    +:+ "[" +:+ now +:+ "] LOG STARTED (" +:+ now +:+ ")" +:+ nl
    +:+ "[" +:+ now +:+ "] " +:+ Str.repeat "▔" 80 +:+ nl.

(** [/app/src/main.js] creates the first logger of a process with
    [{ namespace: "custom" }]. *)
Definition custom : obj := <["namespace" := VStr "custom"]> ∅.

Definition customised : LoggerModule * Process * completion :=
  createLoggerWith env (Posix.requiredBy "/app/src/main.js") custom "T0"
    initialProcess.

(** After the first logger exists, its module has an object
    [{ timestamp: false }] and passes it to [setConfiguration]. *)
Definition quiet : obj := <["timestamp" := VBool false]> ∅.

Definition quietOptions : nat * Process := alloc quiet first.1.2.

Definition reconfigured : LoggerModule * Process :=
  setConfiguration first.1.1 (Some quietOptions.1) quietOptions.2.

(** [/app/src/main.js] creates the first logger of a process without
    options and makes three calls. *)
Definition silent : LoggerModule * Process * completion :=
  createLogger env (Posix.requiredBy "/app/src/main.js") None "T0"
    initialProcess.

Definition threeCalls : list logCall :=
  [mkCall LLog [APrim (VStr "a")] "T1" "0.1000 ms";
   mkCall LWarn [APrim (VStr "b"); APrim (VNum 1)] "T2" "0.2000 ms";
   mkCall LError [AArray [APrim (VNum 1); APrim (VNum 2)]] "T3" "0.3000 ms"].

(** Four files create a logger each, without options: two local files
    with the base name [main.js] and two files of the package [lodash],
    taking turns. *)
Definition N1 : value := VStr "my-app|…/main.js".
Definition N2 : value := VStr "my-app|lodash".

Definition one : LoggerModule * Process * completion :=
  createLogger env (Posix.requiredBy "/app/src/main.js") None "T0"
    initialProcess.

Definition two : LoggerModule * Process * completion :=
  createLogger env (Posix.requiredBy "/app/node_modules/lodash/index.js")
    None "T1" one.1.2.

Definition three : LoggerModule * Process * completion :=
  createLogger env (Posix.requiredBy "/app/lib/main.js") None "T2" two.1.2.

Definition four : LoggerModule * Process * completion :=
  createLogger env (Posix.requiredBy "/app/node_modules/lodash/fp.js")
    None "T3" three.1.2.

Definition quartet : list (string * nat) :=
  [("/app/src/main.js", 0%nat); ("/app/node_modules/lodash/index.js", 1%nat);
   ("/app/lib/main.js", 2%nat); ("/app/node_modules/lodash/fp.js", 3%nat)].

(** Two local files with the base name [main.js] create a logger
    each. *)
Definition twin : LoggerModule * Process * completion :=
  createLogger env (Posix.requiredBy "/app/lib/main.js") None "T1" one.1.2.

(** The first logger's module passes [{ namespace: "renamed" }] to
    [setConfiguration]. *)
Definition renamedOptions : nat * Process :=
  alloc (<["namespace" := VStr "renamed"]> ∅) one.1.2.

Definition renamed : LoggerModule * Process :=
  setConfiguration one.1.1 (Some renamedOptions.1) renamedOptions.2.

End Scenario.

(** The namespace [createLogger] derives for a requiring module whose
    nearest manifest is [manifest], with package name [name]. *)
Definition derivedNamespace (env : Env) (m : LoggerModule)
    (manifest name : string) : string :=
  if bool_decide (dirname env manifest = toplevelModuleDirectory env)
  then toplevelModulePackageName env +:+ "|…/"
         +:+ basename env (requiringModuleFilePath env m)
  else toplevelModulePackageName env +:+ "|" +:+ name.

(** The object that becomes the configuration in [createLogger] and
    [setConfiguration], and the process once that object exists. *)
Definition optionsObject (options : option nat) (σ : Process) : nat * Process :=
  match options with
  | Some o => (o, σ)
  | None => alloc ∅ σ
  end.

(** ** Notions for the further properties *)

(** The object [createLogger] leaves in place of the options [supplied]:
    the defaults filled in, the namespace replaced. *)
Definition attached (env : Env) (m : LoggerModule) (manifest name : string)
    (supplied : obj) : obj :=
  <["namespace" := VStr (derivedNamespace env m manifest name)]>
    (defaultsDeep supplied (defaultLoggerOptions env)).

(** The registry as [createLogger] finds it, empty when it is yet to be
    made. *)
Definition registered (σ : Process) : list (string * nat) :=
  default [] (configurations σ).

(** A registry keyed by file, every entry of which refers to an object
    that exists. *)
Definition registryOk (σ : Process) (r : list (string * nat)) : Prop :=
  NoDup r.*1 ∧ Forall (fun e => (e.2 < length (heap σ))%nat) r.

(** The lines of [message] as [writeMessageToFile] writes them. *)
Definition stamped (env : Env) (now : string) (lines : list string) : string :=
  String.concat ""
    (map (fun line => "[" +:+ now +:+ "] " +:+ line +:+ EOL env) lines).

(** Every file and the console hold what they held, and possibly more
    after it. *)
Definition grownFrom (σ σ' : Process) : Prop :=
  (∀ p content, files σ !! p = Some content →
     ∃ more, files σ' !! p = Some (content +:+ more))
  ∧ ∃ more, console σ' = console σ ++ more.

(** ** Further scenarios *)

Module More.

(** A script outside every package creates a logger with
    [{ write: true }]. *)
Definition orphanOptions : nat * Process :=
  alloc Scenario.writeOn initialProcess.

Definition orphan : LoggerModule * Process * completion :=
  createLogger Scenario.env (Posix.requiredBy "/tmp/script.js")
    (Some orphanOptions.1) "T0" orphanOptions.2.

(** After the two loggers of [Scenario.second], [/app/src/third.js] has an
    object [{ write: true }] to create the third one with. *)
Definition thirdOptions : nat * Process :=
  alloc Scenario.writeOn Scenario.second.1.2.

(** Two files pass one and the same options object. *)
Definition sharedOptions : nat * Process :=
  alloc Scenario.writeOn initialProcess.

Definition sharedOne : LoggerModule * Process * completion :=
  createLogger Scenario.env (Posix.requiredBy "/app/src/main.js")
    (Some sharedOptions.1) "T0" sharedOptions.2.

Definition sharedTwo : LoggerModule * Process * completion :=
  createLogger Scenario.env
    (Posix.requiredBy "/app/node_modules/lodash/index.js")
    (Some sharedOptions.1) "T1" sharedOne.1.2.

End More.

(** The console line of a record, as the print function of the context
    prints it. *)
Definition consoleLine (env : Env) (lm : LoggerMessage) : consoleEntry :=
  if bool_decide (contextType env = "browser")
  then ConsoleBrowser (emoji lm) (rgb lm) (primToString (namespace lm))
         (toString (title lm)) (body lm) (timestamp lm)
  else ConsoleTty (emoji lm) (chalkstyle lm) (thread lm =? 0)
         (primToString (namespace lm)) (toString (title lm)) (body lm)
         (timestamp lm).

(** A string without its first [n] characters. *)
Fixpoint dropString (n : nat) (s : string) : string :=
  match n, s with
  | O, _ => s
  | S k, EmptyString => EmptyString
  | S k, String _ s' => dropString k s'
  end.

(** A log call that reaches the print function: every method but [debug]
    does, and [debug] does in debug mode. *)
Definition reachesPrint (env : Env) (lvl : level) : Prop :=
  lvl ≠ LDebug ∨ isDebug env = true.

(** A module that has its configuration, with the file sink open on the
    file [p]: a truthy [write], no override, [logfile] the string [p]. *)
Definition sinkOpen (env : Env) (σ : Process) (m : LoggerModule) (p : string)
  : Prop :=
  ∃ c, configuration m = Some c
    ∧ truthy (get (deref σ c) "write") = true
    ∧ isNolog env = false
    ∧ get (deref σ c) "logfile" = VStr p.

Module Writing.

(** [/app/src/main.js] has created the first logger with
    [{ write: true }]; where [fs.mkdirp] fails; and with a [logfile] that
    is no string. *)
Definition failing : Env :=
  {| EOL := EOL Scenario.env;
     isDebug := false;
     isNolog := false;
     contextType := contextType Scenario.env;
     contextLabel := contextLabel Scenario.env;
     thisModuleFilename := thisModuleFilename Scenario.env;
     toplevelModuleDirectory := toplevelModuleDirectory Scenario.env;
     toplevelModulePackageName := toplevelModulePackageName Scenario.env;
     logfilePath := logfilePath Scenario.env;
     readPkgUp := readPkgUp Scenario.env;
     basename := basename Scenario.env;
     dirname := dirname Scenario.env;
     mkdirp := fun _ => false;
     streamOpens := fun _ => true |}.

Definition noPath : LoggerModule * Process * completion :=
  createLoggerWith Scenario.env (Posix.requiredBy "/app/src/main.js")
    (<["logfile" := VNum 5]> Scenario.writeOn) "T0" initialProcess.

End Writing.

(** What the loop of the constructor makes of the argument at [index]: an
    array or another object becomes its text, a primitive that stands
    before one becomes its string, any other primitive stays. *)
Definition massagedAt (env : Env) (indent : nat) (message : list arg)
    (index : nat) (a : arg) : arg :=
  if isObjectLike a then APrim (VStr (serialize env indent a))
  else
    match message !! S index with
    | Some next => if isObjectLike next then APrim (VStr (toString a)) else a
    | None => a
    end.

Definition massaged (env : Env) (indent : nat) (message : list arg)
  : list arg :=
  imap (massagedAt env indent message) message.

(** The arguments once the loop has passed the indices below [k]. *)
Definition massagedUpTo (env : Env) (indent : nat) (message : list arg)
    (k : nat) : list arg :=
  imap
    (fun i a =>
       if (S i <? k)%nat then massagedAt env indent message i a
       else if (i <? k)%nat
       then (if isObjectLike a then APrim (VStr (serialize env indent a))
             else a)
       else a)
    message.

Module Later.

(** After the first logger exists, a file of [lodash] creates the second
    one; the first module logs before and after. *)
Definition before : Process := Scenario.one.1.2.

Definition after : LoggerModule * Process * completion :=
  createLogger Scenario.env
    (Posix.requiredBy "/app/node_modules/lodash/index.js") None "T1" before.

(** The first module passes its own configuration back. *)
Definition own : LoggerModule * Process :=
  setConfiguration Scenario.one.1.1 (getConfiguration Scenario.one.1.1)
    Scenario.one.1.2.

(** The first module calls [setConfiguration] without an argument. *)
Definition bare : LoggerModule * Process :=
  setConfiguration Scenario.one.1.1 None Scenario.one.1.2.

(** A caller passes [{ write: undefined, timestamp: null }]. *)
Definition holes : obj :=
  <["write" := VUndefined]> (<["timestamp" := VNull]> ∅).

Definition holesOptions : nat * Process := alloc holes initialProcess.

End Later.

(** * Properties *)

(** ** Strings and paths *)

Example split_lines :
  Str.split nl ("a" +:+ nl +:+ "" +:+ nl +:+ "bc") = ["a"; ""; "bc"].
Proof. reflexivity. Qed.

Example split_crlf :
  Str.split (String "013"%char nl) ("a" +:+ String "013"%char nl +:+ "b")
  = ["a"; "b"].
Proof. reflexivity. Qed.

Example split_empty : Str.split nl "" = [""].
Proof. reflexivity. Qed.

Example length_ellipsis : Str.length "my-app|…/main.js" = 16%nat.
Proof. reflexivity. Qed.

Example basename_main : Posix.path_basename "/app/src/main.js" = "main.js".
Proof. reflexivity. Qed.

Example dirname_manifest : Posix.path_dirname "/app/package.json" = "/app".
Proof. reflexivity. Qed.

(** ** The sinks and the shared objects *)

Section Frame.

Variable env : Env.

(** Writing to the logfile touches neither the objects nor the
    registry. *)
Lemma writeMessageToFile_heap m now message σ :
  heap (writeMessageToFile env m now message σ).1 = heap σ.
Proof.
  unfold writeMessageToFile.
  destruct (configuration m); [|done].
  destruct (_ || _); [done|].
  destruct (get _ "logfile"); try done.
  destruct (mkdirp _ _); [by destruct (streamOpens _ _)|done].
Qed.

Lemma writeMessageToFile_configurations m now message σ :
  configurations (writeMessageToFile env m now message σ).1
  = configurations σ.
Proof.
  unfold writeMessageToFile.
  destruct (configuration m); [|done].
  destruct (_ || _); [done|].
  destruct (get _ "logfile"); try done.
  destruct (mkdirp _ _); [by destruct (streamOpens _ _)|done].
Qed.

(** The gate of the file sink: with a falsy [write] or with the no-log
    override the call returns at once. *)
Lemma writeMessageToFile_gate m c now message σ :
  configuration m = Some c →
  truthy (get (deref σ c) "write") = false ∨ isNolog env = true →
  writeMessageToFile env m now message σ = (σ, Normal).
Proof.
  intros Hc Hgate. unfold writeMessageToFile. rewrite Hc.
  destruct Hgate as [-> | ->]; [done|].
  by rewrite orb_true_r.
Qed.

(** A record is built whenever the module has its configuration and the
    registry exists. *)
Lemma newLoggerMessage_returns σ m c r lvl message elapsed :
  configuration m = Some c →
  configurations σ = Some r →
  ∃ lm, newLoggerMessage env σ m lvl message elapsed = Return lm
    ∧ namespace lm = get (deref σ c) "namespace"
    ∧ thread lm
      = Z.land (indexOf (namespacesList σ r) (get (deref σ c) "namespace")) 1.
Proof.
  intros Hc Hr. unfold newLoggerMessage. rewrite Hc, Hr.
  destruct (1 <? length _)%nat; eexists; (split; [reflexivity|done]).
Qed.

Lemma printToTty_gated m c lvl message now elapsed σ :
  configuration m = Some c →
  truthy (get (deref σ c) "write") = false ∨ isNolog env = true →
  sameButConsole σ (printToTty env m lvl message now elapsed σ).1
  ∧ (is_Some (configurations σ) →
     (printToTty env m lvl message now elapsed σ).2 = Normal).
Proof.
  intros Hc Hgate. unfold printToTty.
  destruct (length message =? 0)%nat; [done|].
  destruct (configurations σ) as [r|] eqn:Hr.
  - destruct (newLoggerMessage_returns σ m c r lvl message elapsed Hc Hr)
      as (lm & -> & _).
    by rewrite (writeMessageToFile_gate m c).
  - unfold newLoggerMessage. rewrite Hc, Hr. split; [done|].
    by intros [? ?].
Qed.

Lemma printToBrowserConsole_gated m c lvl message now elapsed σ :
  configuration m = Some c →
  truthy (get (deref σ c) "write") = false ∨ isNolog env = true →
  sameButConsole σ (printToBrowserConsole env m lvl message now elapsed σ).1
  ∧ (is_Some (configurations σ) →
     (printToBrowserConsole env m lvl message now elapsed σ).2 = Normal).
Proof.
  intros Hc Hgate. unfold printToBrowserConsole.
  destruct (length message =? 0)%nat; [done|].
  destruct (configurations σ) as [r|] eqn:Hr.
  - destruct (newLoggerMessage_returns σ m c r lvl message elapsed Hc Hr)
      as (lm & -> & _).
    by rewrite (writeMessageToFile_gate m c).
  - unfold newLoggerMessage. rewrite Hc, Hr. split; [done|].
    by intros [? ?].
Qed.

Lemma logMethod_gated m c lvl message now elapsed σ :
  configuration m = Some c →
  truthy (get (deref σ c) "write") = false ∨ isNolog env = true →
  sameButConsole σ (logMethod lvl env m message now elapsed σ).1
  ∧ (is_Some (configurations σ) →
     (logMethod lvl env m message now elapsed σ).2 = Normal).
Proof.
  intros Hc Hgate.
  assert (∀ l,
    sameButConsole σ (printToAny env m l message now elapsed σ).1
    ∧ (is_Some (configurations σ) →
       (printToAny env m l message now elapsed σ).2 = Normal)) as Hany.
  { intros l. unfold printToAny. case_bool_decide.
    - by apply (printToBrowserConsole_gated m c).
    - by apply (printToTty_gated m c). }
  destruct lvl; simpl; try apply Hany.
  unfold loggerInstance.debug. destruct (isDebug env); [apply Hany|done].
Qed.

End Frame.

(** ** Empty argument lists *)

(** C8. Each of the five log methods, called without arguments, returns
    normally and leaves the whole process (console, files, objects,
    registry) as it was. *)
Theorem empty_call_is_noop (env : Env) (m : LoggerModule) (lvl : level)
    (now elapsed : string) (σ : Process) :
  logMethod lvl env m [] now elapsed σ = (σ, Normal)
  ∧ loggerInstance.debug env m [] now elapsed σ = (σ, Normal)
  ∧ loggerInstance.log env m [] now elapsed σ = (σ, Normal)
  ∧ loggerInstance.info env m [] now elapsed σ = (σ, Normal)
  ∧ loggerInstance.warn env m [] now elapsed σ = (σ, Normal)
  ∧ loggerInstance.error env m [] now elapsed σ = (σ, Normal).
Proof.
  assert (∀ l, printToAny env m l [] now elapsed σ = (σ, Normal)) as Hany.
  { intros l. unfold printToAny. by case_bool_decide. }
  assert (loggerInstance.debug env m [] now elapsed σ = (σ, Normal)) as Hdebug.
  { unfold loggerInstance.debug. destruct (isDebug env); [apply Hany|done]. }
  repeat split; try apply Hany; try done.
  destruct lvl; simpl; try apply Hany; done.
Qed.

(** ** The gate of the file sink *)

(** C7. While the configuration's [write] is falsy or the no-log override
    is active, no sequence of log calls changes any file: the contents of
    every file, the logfile among them, stay what they were, and with the
    registry in place every call returns normally. *)
Theorem gated_calls_append_nothing (env : Env) (m : LoggerModule) (c : nat)
    (calls : list logCall) (σ : Process) :
  configuration m = Some c →
  truthy (get (deref σ c) "write") = false ∨ isNolog env = true →
  files (runCalls env m calls σ).1 = files σ
  ∧ (is_Some (configurations σ) → (runCalls env m calls σ).2 = Normal).
Proof.
  intros Hc. revert σ.
  induction calls as [|call calls IH]; intros σ Hgate; [done|].
  simpl.
  destruct (logMethod_gated env m c (callLevel call) (callArguments call)
              (callNow call) (callElapsed call) σ Hc Hgate)
    as [(Hheap & Hconf & Hfiles) Hnormal].
  destruct (logMethod _ _ _ _ _ _ _) as [σ' [[]|e]]; simpl in *.
  - assert (deref σ' c = deref σ c) as Hderef by (unfold deref; by rewrite Hheap).
    destruct (IH σ') as [IHfiles IHnormal]; [by rewrite Hderef|].
    split; [by rewrite IHfiles|].
    intros Hsome. apply IHnormal. by rewrite Hconf.
  - split; [done|]. intros Hsome. by specialize (Hnormal Hsome).
Qed.

(** ** The header of the logfile *)

(** C1 (the code at the failing input). The first logger created in a
    process, whatever its options, leaves every file as it was: the
    registry is still empty when its size is compared with one.  In the
    scenario the logfile holds the line of the first message and no header
    before it; the header is appended when the second logger is created,
    and once per creation when the same file creates its logger again. *)
Theorem first_initialization_writes_no_header (env : Env) (m : LoggerModule)
    (options : option nat) (now : string) (h : list obj)
    (f : gmap string string) (c : list consoleEntry) :
  files (createLogger env m options now (mkProcess h None f c)).1.2 = f
  ∧ files Scenario.first.1.2 = ∅
  ∧ files Scenario.hello.1 !! Scenario.logfile = Some Scenario.helloLine
  ∧ files Scenario.second.1.2 !! Scenario.logfile
    = Some (Scenario.helloLine +:+ Scenario.headerLines "T2")
  ∧ files Scenario.onceMore.1.2 !! Scenario.logfile
    = Some (Scenario.helloLine +:+ Scenario.headerLines "T2"
              +:+ Scenario.headerLines "T3").
Proof.
  split; [|by vm_compute].
  unfold createLogger.
  destruct options as [o|]; simpl;
    (destruct (readPkgUp env _) as [[manifest name]|]; [|done]);
    simpl; by case_bool_decide.
Qed.

(** ** Merging options *)

Lemma defaultsDeep_lookup (object source : obj) (k : string) :
  defaultsDeep object source !! k = defaultsDeepAt (object !! k) (source !! k).
Proof.
  unfold defaultsDeep. rewrite lookup_merge.
  by destruct (object !! k), (source !! k).
Qed.

(** On an object that supplies a value for each of its properties lodash's
    merge is the merge of the specification. *)
Lemma defaultsDeep_mergeOver (object source : obj) :
  suppliesValues object → defaultsDeep object source = mergeOver object source.
Proof.
  intros Hsup. apply map_eq. intros k.
  unfold mergeOver. rewrite defaultsDeep_lookup, lookup_union.
  destruct (object !! k) as [v|] eqn:Hk; simpl.
  - specialize (Hsup k v Hk). simpl in Hsup.
    destruct v; try done; by destruct (source !! k).
  - by destruct (source !! k).
Qed.

Lemma defaultsDeep_same (object : obj) : defaultsDeep object object = object.
Proof.
  apply map_eq. intros k. rewrite defaultsDeep_lookup.
  by destruct (object !! k) as [[]|].
Qed.

(** ** Objects by reference *)

Lemma deref_lookup (σ : Process) (l : nat) (o : obj) :
  heap σ !! l = Some o → deref σ l = o.
Proof. unfold deref. by intros ->. Qed.

Lemma deref_store_eq (σ : Process) (l : nat) (o : obj) :
  (l < length (heap σ))%nat → deref (store l o σ) l = o.
Proof.
  intros Hl. unfold deref, store. simpl.
  by rewrite list_lookup_insert_eq.
Qed.

Lemma deref_alloc (σ : Process) (o : obj) :
  deref (alloc o σ).2 (alloc o σ).1 = o.
Proof.
  unfold deref, alloc. simpl.
  by rewrite lookup_app_r, Nat.sub_diag.
Qed.

(** ** What [createLogger] stores *)

Section CreateLogger.

Variable env : Env.

Lemma createLogger_stores m options now σ manifest name :
  readPkgUp env (requiringModuleFilePath env m) = Some (manifest, name) →
  let o := (optionsObject options σ).1 in
  let σ0 := (optionsObject options σ).2 in
  configuration (createLogger env m options now σ).1.1 = Some o
  ∧ heap (createLogger env m options now σ).1.2
    = <[o := <["namespace" := VStr (derivedNamespace env m manifest name)]>
               (defaultsDeep (deref σ0 o) (defaultLoggerOptions env))]>
        (heap σ0).
Proof.
  intros Hpkg o σ0. unfold createLogger.
  fold (optionsObject options σ).
  destruct (optionsObject options σ) as [o' σ0'] eqn:Hopt.
  subst o σ0. simpl. rewrite Hpkg.
  set (dd := defaultsDeep (deref σ0' o') (defaultLoggerOptions env)).
  set (σ1 := store o' dd σ0').
  set (loc := <["namespace" := VStr (localNamespace env _)]> (deref σ1 o')).
  set (σ2 := store o' loc σ1).
  set (σ3 := if negb (negb (bool_decide _)) then _ else σ2).
  assert (heap σ3
          = <[o' := <["namespace" := VStr (derivedNamespace env m manifest name)]> dd]>
              (heap σ0')) as Hheap.
  { destruct (decide (o' < length (heap σ0'))%nat) as [Hin|Hout].
    - assert (deref σ1 o' = dd) as Hd1 by (by apply deref_store_eq).
      assert (deref σ2 o' = loc) as Hd2.
      { apply deref_store_eq. unfold σ1, store. simpl.
        by rewrite length_insert. }
      subst σ3. unfold derivedNamespace.
      destruct (decide (dirname env manifest = toplevelModuleDirectory env))
        as [Hdir|Hdir].
      + rewrite (bool_decide_eq_false_2 (_ ≠ _)) by (by intros ?).
        rewrite bool_decide_eq_true_2 by done. simpl.
        rewrite list_insert_insert_eq. subst loc.
        by rewrite Hd1.
      + rewrite (bool_decide_eq_true_2 (_ ≠ _)) by done.
        rewrite bool_decide_eq_false_2 by done. simpl.
        rewrite Hd2, !list_insert_insert_eq.
        subst loc. rewrite Hd1. by rewrite insert_insert_eq.
    - assert (∀ x τ, heap τ = heap σ0' → heap (store o' x τ) = heap σ0')
        as Hnop.
      { intros x τ Hτ. unfold store. simpl. rewrite Hτ.
        apply list_insert_ge. lia. }
      rewrite (list_insert_ge (heap σ0')) by lia.
      assert (heap σ2 = heap σ0') as H2 by (by apply Hnop, Hnop).
      subst σ3. destruct (negb (negb _)); [by apply Hnop|done]. }
  clearbody σ3. clear σ2 loc σ1.
  destruct (configurations σ3) as [r|] eqn:Hr; simpl.
  - rewrite Hr. simpl.
    destruct (length r =? 1)%nat.
    + pose proof (writeMessageToFile_heap env
                    (mkModule (parentFilename m) (Some o')) now
                    (headerText env now) σ3) as Hw.
      unfold writeHeaderToFile.
      destruct (writeMessageToFile _ _ _ _ _) as [σ4 [[]|e]];
        simpl in *; by rewrite <- Hheap, <- Hw.
    + done.
  - done.
Qed.

End CreateLogger.

(** ** Namespaces *)

(** C5. When the requiring module has a manifest, the configuration
    [createLogger] attaches carries the namespace ["<appName>|…/<base name of
    the requiring file>"] if the directory of that manifest is the
    application's root directory, and ["<appName>|<package name>"] if it
    is not. *)
Theorem createLogger_namespace (env : Env) (m : LoggerModule)
    (options : option nat) (now : string) (σ : Process)
    (manifest name : string) :
  (∀ o, options = Some o → is_Some (heap σ !! o)) →
  readPkgUp env (requiringModuleFilePath env m) = Some (manifest, name) →
  ∃ l,
    configuration (createLogger env m options now σ).1.1 = Some l
    ∧ get (deref (createLogger env m options now σ).1.2 l) "namespace"
      = VStr
          (if bool_decide (dirname env manifest = toplevelModuleDirectory env)
           then toplevelModulePackageName env +:+ "|…/"
                  +:+ basename env (requiringModuleFilePath env m)
           else toplevelModulePackageName env +:+ "|" +:+ name).
Proof.
  intros Hopt Hpkg.
  destruct (createLogger_stores env m options now σ manifest name Hpkg)
    as [Hconf Hheap].
  eexists. split; [exact Hconf|].
  unfold deref. rewrite Hheap.
  rewrite list_lookup_insert_eq.
  - unfold get. simpl. by rewrite lookup_insert_eq.
  - destruct options as [o|]; simpl.
    + destruct (Hopt o eq_refl) as [x Hx]. by apply lookup_lt_Some in Hx.
    + rewrite length_app. simpl. lia.
Qed.

Lemma createLogger_namespace_witness :
  ∃ l,
    configuration
      (createLogger Scenario.env
         (Posix.requiredBy "/app/node_modules/lodash/index.js") None "T0"
         initialProcess).1.1 = Some l
    ∧ get (deref
             (createLogger Scenario.env
                (Posix.requiredBy "/app/node_modules/lodash/index.js") None
                "T0" initialProcess).1.2 l) "namespace"
      = VStr "my-app|lodash".
Proof.
  apply (createLogger_namespace Scenario.env
           (Posix.requiredBy "/app/node_modules/lodash/index.js") None "T0"
           initialProcess "/app/node_modules/lodash/package.json" "lodash").
  - intros o Ho. discriminate Ho.
  - reflexivity.
Defined.

(** ** The configuration of a new logger *)

(** C3 (as amended). When the requiring module has a manifest, then for
    every options object the configuration [createLogger] attaches is that
    object itself, holding the caller's options merged onto the defaults
    with the caller's values winning, except for [namespace]: that
    property is always replaced by the namespace derived from the
    requiring module.  Every other property reads as the caller's value
    where the caller's object has one that is not [undefined], and as the
    default where the caller leaves it out or sets it to [undefined]; for
    options without such [undefined] properties the object is the merge of
    the specification, with the namespace replaced. *)
Theorem createLogger_configuration (env : Env) (m : LoggerModule)
    (options : option nat) (now : string) (σ : Process) (supplied : obj)
    (manifest name : string) :
  match options with
  | Some o => heap σ !! o = Some supplied
  | None => supplied = ∅
  end →
  readPkgUp env (requiringModuleFilePath env m) = Some (manifest, name) →
  ∃ l,
    configuration (createLogger env m options now σ).1.1 = Some l
    ∧ l = (optionsObject options σ).1
    ∧ deref (createLogger env m options now σ).1.2 l
      = <["namespace" := VStr (derivedNamespace env m manifest name)]>
          (defaultsDeep supplied (defaultLoggerOptions env))
    ∧ (∀ k, k ≠ "namespace" →
         get (deref (createLogger env m options now σ).1.2 l) k
         = (if decide (get supplied k = VUndefined)
            then get (defaultLoggerOptions env) k
            else get supplied k))
    ∧ get (deref (createLogger env m options now σ).1.2 l) "namespace"
      = VStr (derivedNamespace env m manifest name)
    ∧ (suppliesValues supplied →
       deref (createLogger env m options now σ).1.2 l
       = <["namespace" := VStr (derivedNamespace env m manifest name)]>
           (mergeOver supplied (defaultLoggerOptions env)))
    ∧ (∀ k v, k ≠ "namespace" → supplied !! k = Some v → v ≠ VUndefined →
         deref (createLogger env m options now σ).1.2 l !! k = Some v)
    ∧ (∀ k, k ≠ "namespace" → supplied !! k = None →
         deref (createLogger env m options now σ).1.2 l !! k
         = defaultLoggerOptions env !! k).
Proof.
  intros Hopt Hpkg.
  destruct (createLogger_stores env m options now σ manifest name Hpkg)
    as [Hconf Hheap].
  assert (deref (optionsObject options σ).2 (optionsObject options σ).1
          = supplied
          ∧ ((optionsObject options σ).1
             < length (heap (optionsObject options σ).2))%nat) as [Hd Hlt].
  { destruct options as [o|]; simpl.
    - split; [by apply deref_lookup|by apply lookup_lt_Some in Hopt].
    - subst supplied. split; [apply (deref_alloc σ ∅)|].
      rewrite length_app. simpl. lia. }
  assert (deref (createLogger env m options now σ).1.2
            (optionsObject options σ).1
          = <["namespace" := VStr (derivedNamespace env m manifest name)]>
              (defaultsDeep supplied (defaultLoggerOptions env))) as Hcfg.
  { unfold deref at 1. rewrite Hheap, list_lookup_insert_eq by done.
    simpl. by rewrite Hd. }
  eexists. split; [exact Hconf|]. split; [done|].
  split; [exact Hcfg|].
  rewrite Hcfg. split; [|split; [|split; [|split]]].
  - intros k Hk. unfold get.
    rewrite lookup_insert_ne by done. rewrite defaultsDeep_lookup.
    destruct (supplied !! k) as [[]|], (defaultLoggerOptions env !! k);
      simpl; done.
  - unfold get. by rewrite lookup_insert_eq.
  - intros Hsup. by rewrite defaultsDeep_mergeOver.
  - intros k v Hk Hv Hdef. rewrite lookup_insert_ne by done.
    rewrite defaultsDeep_lookup, Hv. by destruct v.
  - intros k Hk Hv. rewrite lookup_insert_ne by done.
    by rewrite defaultsDeep_lookup, Hv.
Qed.

Lemma createLogger_configuration_witness :
  ∃ l,
    configuration
      (createLogger Scenario.env (Posix.requiredBy "/app/src/main.js")
         (Some 0%nat) "T0" Later.holesOptions.2).1.1 = Some l
    ∧ l = (optionsObject (Some 0%nat) Later.holesOptions.2).1
    ∧ deref
        (createLogger Scenario.env (Posix.requiredBy "/app/src/main.js")
           (Some 0%nat) "T0" Later.holesOptions.2).1.2 l
      = <["namespace" :=
            VStr (derivedNamespace Scenario.env
                    (Posix.requiredBy "/app/src/main.js") "/app/package.json"
                    "my-app")]>
          (defaultsDeep Later.holes (defaultLoggerOptions Scenario.env))
    ∧ (∀ k, k ≠ "namespace" →
         get (deref
                (createLogger Scenario.env
                   (Posix.requiredBy "/app/src/main.js") (Some 0%nat) "T0"
                   Later.holesOptions.2).1.2 l) k
         = (if decide (get Later.holes k = VUndefined)
            then get (defaultLoggerOptions Scenario.env) k
            else get Later.holes k))
    ∧ get (deref
             (createLogger Scenario.env (Posix.requiredBy "/app/src/main.js")
                (Some 0%nat) "T0" Later.holesOptions.2).1.2 l) "namespace"
      = VStr (derivedNamespace Scenario.env
                (Posix.requiredBy "/app/src/main.js") "/app/package.json"
                "my-app")
    ∧ (suppliesValues Later.holes →
       deref
         (createLogger Scenario.env (Posix.requiredBy "/app/src/main.js")
            (Some 0%nat) "T0" Later.holesOptions.2).1.2 l
       = <["namespace" :=
             VStr (derivedNamespace Scenario.env
                     (Posix.requiredBy "/app/src/main.js")
                     "/app/package.json" "my-app")]>
           (mergeOver Later.holes (defaultLoggerOptions Scenario.env)))
    ∧ (∀ k v, k ≠ "namespace" → Later.holes !! k = Some v →
         v ≠ VUndefined →
         deref
           (createLogger Scenario.env (Posix.requiredBy "/app/src/main.js")
              (Some 0%nat) "T0" Later.holesOptions.2).1.2 l !! k = Some v)
    ∧ (∀ k, k ≠ "namespace" → Later.holes !! k = None →
         deref
           (createLogger Scenario.env (Posix.requiredBy "/app/src/main.js")
              (Some 0%nat) "T0" Later.holesOptions.2).1.2 l !! k
         = defaultLoggerOptions Scenario.env !! k).
Proof.
  refine (createLogger_configuration Scenario.env
            (Posix.requiredBy "/app/src/main.js") (Some 0%nat) "T0"
            Later.holesOptions.2 Later.holes "/app/package.json" "my-app"
            _ _).
  - vm_compute. reflexivity.
  - vm_compute. reflexivity.
Defined.

(** C3 (as stated) fails: a caller that supplies [namespace: "custom"]
    does not find it in the configuration; the configuration differs from
    the options merged onto the defaults. *)
Lemma caller_namespace_is_overwritten :
  Scenario.customised.2 = Normal
  ∧ configuration Scenario.customised.1.1 = Some 0%nat
  ∧ get Scenario.custom "namespace" = VStr "custom"
  ∧ get (deref Scenario.customised.1.2 0) "namespace"
    = VStr "my-app|…/main.js"
  ∧ deref Scenario.customised.1.2 0
    ≠ mergeOver Scenario.custom (defaultLoggerOptions Scenario.env)
  ∧ deref Scenario.customised.1.2 0
    ≠ defaultsDeep Scenario.custom (defaultLoggerOptions Scenario.env).
Proof.
  repeat split; by vm_compute.
Qed.

(** ** Changing the configuration *)

(** C6. [setConfiguration] with an options object that supplies a value
    for each of its properties, followed by [getConfiguration], returns
    that object holding the options merged over the previous configuration
    with the caller's values winning: a property the caller supplies has
    the caller's value, any other has the value it had before. *)
Theorem setConfiguration_getConfiguration (m : LoggerModule) (σ : Process)
    (c o : nat) (partial previous : obj) :
  configuration m = Some c →
  heap σ !! c = Some previous →
  heap σ !! o = Some partial →
  suppliesValues partial →
  ∃ l,
    getConfiguration (setConfiguration m (Some o) σ).1 = Some l
    ∧ deref (setConfiguration m (Some o) σ).2 l = mergeOver partial previous
    ∧ (∀ k v, partial !! k = Some v →
         deref (setConfiguration m (Some o) σ).2 l !! k = Some v)
    ∧ (∀ k, partial !! k = None →
         deref (setConfiguration m (Some o) σ).2 l !! k = previous !! k).
Proof.
  intros Hc Hprev Hpart Hsup.
  assert (deref (setConfiguration m (Some o) σ).2 o = mergeOver partial previous)
    as Hcfg.
  { unfold setConfiguration. simpl. rewrite Hc.
    rewrite deref_store_eq by (by apply lookup_lt_Some in Hpart).
    rewrite (deref_lookup σ o partial), (deref_lookup σ c previous) by done.
    by apply defaultsDeep_mergeOver. }
  exists o. split; [done|]. split; [exact Hcfg|].
  rewrite Hcfg. unfold mergeOver. split.
  - intros k v Hv. by apply lookup_union_Some_l.
  - intros k Hv. by apply lookup_union_r.
Qed.

Lemma setConfiguration_getConfiguration_witness :
  ∃ l,
    getConfiguration Scenario.reconfigured.1 = Some l
    ∧ deref Scenario.reconfigured.2 l
      = mergeOver Scenario.quiet
          (<["namespace" := VStr "my-app|…/main.js"]>
             (mergeOver Scenario.writeOn (defaultLoggerOptions Scenario.env)))
    ∧ (∀ k v, Scenario.quiet !! k = Some v →
         deref Scenario.reconfigured.2 l !! k = Some v)
    ∧ (∀ k, Scenario.quiet !! k = None →
         deref Scenario.reconfigured.2 l !! k
         = (<["namespace" := VStr "my-app|…/main.js"]>
              (mergeOver Scenario.writeOn
                 (defaultLoggerOptions Scenario.env))) !! k).
Proof.
  apply (setConfiguration_getConfiguration Scenario.first.1.1
           Scenario.quietOptions.2 0 1 Scenario.quiet
           (<["namespace" := VStr "my-app|…/main.js"]>
              (mergeOver Scenario.writeOn
                 (defaultLoggerOptions Scenario.env)))).
  - reflexivity.
  - vm_compute. reflexivity.
  - reflexivity.
  - apply map_Forall_insert_2; [discriminate|apply map_Forall_empty].
Defined.

Lemma gated_calls_append_nothing_witness :
  files (runCalls Scenario.env Scenario.silent.1.1 Scenario.threeCalls
           Scenario.silent.1.2).1 = files Scenario.silent.1.2
  ∧ (is_Some (configurations Scenario.silent.1.2) →
     (runCalls Scenario.env Scenario.silent.1.1 Scenario.threeCalls
        Scenario.silent.1.2).2 = Normal).
Proof.
  apply (gated_calls_append_nothing Scenario.env Scenario.silent.1.1 0
           Scenario.threeCalls Scenario.silent.1.2).
  - reflexivity.
  - left. reflexivity.
Defined.

(** ** Positions in the list of namespaces *)

Lemma land_one_mod (z : Z) : Z.land z 1 = z `mod` 2.
Proof. apply (Z.land_ones z 1). lia. Qed.

Lemma indexOfFrom_notin (i : Z) (l : list value) (x : value) :
  x ∉ l → indexOfFrom i l x = -1.
Proof.
  revert i. induction l as [|y l IH]; intros i Hx; [done|].
  simpl. apply not_elem_of_cons in Hx as [Hne Hx].
  destruct (decide (y = x)); [congruence|]. by apply IH.
Qed.

Lemma indexOfFrom_first (i : Z) (l : list value) (x : value) (n : nat) :
  firstAt l x n → indexOfFrom i l x = i + Z.of_nat n.
Proof.
  revert i n. induction l as [|y l IH]; intros i n [Hn Hfirst]; [done|].
  simpl. destruct (decide (y = x)) as [->|Hne].
  - destruct n as [|n]; [lia|].
    exfalso. apply (Hfirst 0%nat); [lia|done].
  - destruct n as [|n]; [simpl in Hn; congruence|].
    rewrite (IH (i + 1) n); [lia|].
    split; [done|]. intros j Hj. apply (Hfirst (S j)). lia.
Qed.

Lemma firstAt_below (l : list value) (x : value) (j : nat) :
  l !! j = Some x → ∃ i, (i ≤ j)%nat ∧ firstAt l x i.
Proof.
  revert j. induction l as [|y l IH]; intros j Hj; [done|].
  destruct (decide (y = x)) as [->|Hne].
  - exists 0%nat. split; [lia|]. split; [done|]. intros k Hk. lia.
  - destruct j as [|j]; [simpl in Hj; congruence|].
    destruct (IH j Hj) as (i & Hi & Hat & Hfirst).
    exists (S i). split; [lia|]. split; [done|].
    intros [|k] Hk; simpl; [congruence|]. apply Hfirst. lia.
Qed.

Lemma indexOf_first (l : list value) (x : value) (n : nat) :
  firstAt l x n → indexOf l x = Z.of_nat n.
Proof. intros H. unfold indexOf. by rewrite (indexOfFrom_first 0 l x n). Qed.

Lemma indexOf_notin (l : list value) (x : value) :
  x ∉ l → indexOf l x = -1.
Proof. apply indexOfFrom_notin. Qed.

(** With two different namespaces taking turns, the first place of each
    has the parity of every place it occupies. *)
Lemma alternating_parities (N1 N2 : value) :
  N1 ≠ N2 →
  map (fun n => Z.land (indexOf [N1; N2; N1; N2] n) 1) [N1; N2; N1; N2]
  = [0; 1; 0; 1].
Proof.
  intros Hne. unfold indexOf. simpl.
  repeat case_decide; first [done | congruence].
Qed.

Lemma alternating_place (N1 N2 x : value) (i : nat) :
  N1 ≠ N2 →
  [N1; N2; N1; N2] !! i = Some x →
  Z.land (indexOf [N1; N2; N1; N2] x) 1 = Z.of_nat i `mod` 2.
Proof.
  intros Hne Hi. unfold indexOf.
  destruct i as [|[|[|[|i]]]]; simpl in Hi; try done;
    injection Hi as <-; simpl; repeat case_decide; first [done | congruence].
Qed.

(** ** Thread parity *)

(** C2. Every log call that builds a record gives it the caller's
    namespace and, as thread, the index of that namespace in the list of
    the registered namespaces (in registration order, as [indexOf] finds
    it: the first place that holds it) modulo 2.  When the registered
    namespaces are N1, N2, N1, N2 with N1 and N2 different, the caller
    whose namespace stands at place i gets the parity of i: 0, 1, 0, 1. *)
Theorem thread_is_namespace_index_parity (env : Env) (σ : Process)
    (m : LoggerModule) (c : nat) (r : list (string * nat)) (lvl : level)
    (message : list arg) (elapsed : string) (N1 N2 : value) :
  configuration m = Some c →
  configurations σ = Some r →
  ∃ lm,
    newLoggerMessage env σ m lvl message elapsed = Return lm
    ∧ namespace lm = get (deref σ c) "namespace"
    ∧ thread lm = indexOf (namespacesList σ r) (namespace lm) `mod` 2
    ∧ (∀ i : nat, firstAt (namespacesList σ r) (namespace lm) i →
         indexOf (namespacesList σ r) (namespace lm) = Z.of_nat i
         ∧ thread lm = Z.of_nat i `mod` 2)
    ∧ (N1 ≠ N2 → namespacesList σ r = [N1; N2; N1; N2] →
         map (fun n => Z.land (indexOf (namespacesList σ r) n) 1)
           (namespacesList σ r) = [0; 1; 0; 1]
         ∧ ∀ i : nat, namespacesList σ r !! i = Some (namespace lm) →
             thread lm = Z.of_nat i `mod` 2).
Proof.
  intros Hc Hr.
  destruct (newLoggerMessage_returns env σ m c r lvl message elapsed Hc Hr)
    as (lm & Hlm & Hns & Hthread).
  exists lm. rewrite Hns, Hthread.
  split; [done|]. split; [done|]. split; [apply land_one_mod|].
  split.
  - intros i Hi. rewrite (indexOf_first _ _ i Hi).
    split; [done|apply land_one_mod].
  - intros Hne Hlist. rewrite Hlist. split.
    + by apply alternating_parities.
    + intros i Hi. by apply alternating_place.
Qed.

Lemma thread_is_namespace_index_parity_witness :
  configurations Scenario.four.1.2 = Some Scenario.quartet
  ∧ namespacesList Scenario.four.1.2 Scenario.quartet
    = [Scenario.N1; Scenario.N2; Scenario.N1; Scenario.N2]
  ∧ ∃ lm,
      newLoggerMessage Scenario.env Scenario.four.1.2 Scenario.three.1.1 LLog
        [APrim (VStr "hello")] "" = Return lm
      ∧ namespace lm = Scenario.N1
      ∧ thread lm = 0.
Proof.
  split; [reflexivity|]. split; [reflexivity|].
  destruct (thread_is_namespace_index_parity Scenario.env Scenario.four.1.2
              Scenario.three.1.1 2 Scenario.quartet LLog
              [APrim (VStr "hello")] "" Scenario.N1 Scenario.N2
              eq_refl eq_refl)
    as (lm & Hlm & Hns & _ & _ & Hturns).
  exists lm. split; [exact Hlm|]. split; [exact Hns|].
  destruct Hturns as [_ Hplace]; [discriminate|reflexivity|].
  apply (Hplace 2%nat). rewrite Hns. reflexivity.
Defined.

(** C9. Two callers whose configurations carry the same namespace get the
    same thread in every record they produce: the parity of the first
    place at which that namespace stands in the list of registered
    namespaces, which is at or before the place of the caller's own
    entry. *)
Theorem same_namespace_same_thread (env : Env) (σ : Process)
    (m1 m2 : LoggerModule) (c1 c2 : nat) (r : list (string * nat))
    (lvl1 lvl2 : level) (message1 message2 : list arg)
    (elapsed1 elapsed2 : string) :
  configuration m1 = Some c1 →
  configuration m2 = Some c2 →
  configurations σ = Some r →
  get (deref σ c1) "namespace" = get (deref σ c2) "namespace" →
  ∃ lm1 lm2,
    newLoggerMessage env σ m1 lvl1 message1 elapsed1 = Return lm1
    ∧ newLoggerMessage env σ m2 lvl2 message2 elapsed2 = Return lm2
    ∧ thread lm1 = thread lm2
    ∧ (∀ i : nat, firstAt (namespacesList σ r) (namespace lm1) i →
         thread lm1 = Z.of_nat i `mod` 2 ∧ thread lm2 = Z.of_nat i `mod` 2)
    ∧ (∀ (j : nat) (file : string), r !! j = Some (file, c2) →
         ∃ i : nat, (i ≤ j)%nat
           ∧ firstAt (namespacesList σ r) (namespace lm2) i
           ∧ thread lm1 = Z.of_nat i `mod` 2
           ∧ thread lm2 = Z.of_nat i `mod` 2).
Proof.
  intros Hc1 Hc2 Hr Hsame.
  destruct (newLoggerMessage_returns env σ m1 c1 r lvl1 message1 elapsed1
              Hc1 Hr) as (lm1 & Hlm1 & Hns1 & Hthread1).
  destruct (newLoggerMessage_returns env σ m2 c2 r lvl2 message2 elapsed2
              Hc2 Hr) as (lm2 & Hlm2 & Hns2 & Hthread2).
  exists lm1, lm2. rewrite Hns1, Hns2, Hthread1, Hthread2, Hsame.
  split; [done|]. split; [done|]. split; [done|]. split.
  - intros i Hi. rewrite (indexOf_first _ _ i Hi).
    split; apply land_one_mod.
  - intros j file Hj.
    assert (namespacesList σ r !! j = Some (get (deref σ c2) "namespace"))
      as Hplace.
    { unfold namespacesList. rewrite list_lookup_fmap, Hj. done. }
    destruct (firstAt_below _ _ _ Hplace) as (i & Hle & Hi).
    exists i. split; [done|]. split; [done|].
    rewrite (indexOf_first _ _ i Hi). split; apply land_one_mod.
Qed.

Lemma same_namespace_same_thread_witness :
  ∃ lm1 lm2,
    newLoggerMessage Scenario.env Scenario.twin.1.2 Scenario.one.1.1 LLog
      [APrim (VStr "from src")] "" = Return lm1
    ∧ newLoggerMessage Scenario.env Scenario.twin.1.2 Scenario.twin.1.1 LWarn
        [APrim (VStr "from lib")] "" = Return lm2
    ∧ thread lm1 = thread lm2
    ∧ (∀ i : nat,
         firstAt
           (namespacesList Scenario.twin.1.2
              [("/app/src/main.js", 0%nat); ("/app/lib/main.js", 1%nat)])
           (namespace lm1) i →
         thread lm1 = Z.of_nat i `mod` 2 ∧ thread lm2 = Z.of_nat i `mod` 2)
    ∧ (∀ (j : nat) (file : string),
         [("/app/src/main.js", 0%nat); ("/app/lib/main.js", 1%nat)] !! j
         = Some (file, 1%nat) →
         ∃ i : nat, (i ≤ j)%nat
           ∧ firstAt
               (namespacesList Scenario.twin.1.2
                  [("/app/src/main.js", 0%nat); ("/app/lib/main.js", 1%nat)])
               (namespace lm2) i
           ∧ thread lm1 = Z.of_nat i `mod` 2
           ∧ thread lm2 = Z.of_nat i `mod` 2).
Proof.
  apply (same_namespace_same_thread Scenario.env Scenario.twin.1.2
           Scenario.one.1.1 Scenario.twin.1.1 0 1
           [("/app/src/main.js", 0%nat); ("/app/lib/main.js", 1%nat)]
           LLog LWarn [APrim (VStr "from src")] [APrim (VStr "from lib")]
           "" "").
  - reflexivity.
  - reflexivity.
  - reflexivity.
  - reflexivity.
Defined.

(** C10. A caller whose current namespace stands nowhere in the list of
    registered namespaces gets thread 1 in every record: [indexOf] returns
    -1 and [-1 & 1] is 1.  [setConfiguration] brings this about: it makes
    the object passed the module's configuration and leaves the registry,
    which holds the object stored at creation, as it was. *)
Theorem unregistered_namespace_thread_is_one (env : Env) (σ : Process)
    (m : LoggerModule) (c : nat) (r : list (string * nat)) (lvl : level)
    (message : list arg) (elapsed : string) :
  configuration m = Some c →
  configurations σ = Some r →
  get (deref σ c) "namespace" ∉ namespacesList σ r →
  (∃ lm,
     newLoggerMessage env σ m lvl message elapsed = Return lm
     ∧ indexOf (namespacesList σ r) (namespace lm) = -1
     ∧ thread lm = 1)
  ∧ ∀ (m0 : LoggerModule) (options : option nat) (σ0 : Process),
      configurations (setConfiguration m0 options σ0).2 = configurations σ0
      ∧ configuration (setConfiguration m0 options σ0).1
        = Some (optionsObject options σ0).1.
Proof.
  intros Hc Hr Hnotin. split.
  - destruct (newLoggerMessage_returns env σ m c r lvl message elapsed Hc Hr)
      as (lm & Hlm & Hns & Hthread).
    exists lm. rewrite Hns, Hthread, (indexOf_notin _ _ Hnotin). done.
  - intros m0 options σ0. unfold setConfiguration.
    destruct options as [o|]; simpl; by destruct (configuration m0).
Qed.

Lemma unregistered_namespace_thread_is_one_witness :
  configurations Scenario.renamed.2 = Some [("/app/src/main.js", 0%nat)]
  ∧ configuration Scenario.renamed.1 = Some 1%nat
  ∧ ∃ lm,
      newLoggerMessage Scenario.env Scenario.renamed.2 Scenario.renamed.1
        LInfo [APrim (VStr "hello")] "" = Return lm
      ∧ namespace lm = VStr "renamed"
      ∧ indexOf
          (namespacesList Scenario.renamed.2 [("/app/src/main.js", 0%nat)])
          (namespace lm) = -1
      ∧ thread lm = 1.
Proof.
  split; [reflexivity|]. split; [reflexivity|].
  destruct (unregistered_namespace_thread_is_one Scenario.env
              Scenario.renamed.2 Scenario.renamed.1 1
              [("/app/src/main.js", 0%nat)] LInfo [APrim (VStr "hello")] ""
              eq_refl eq_refl) as [(lm & Hlm & Hindex & Hthread) _].
  - vm_compute. intros Hin. apply list_elem_of_In in Hin.
    destruct Hin as [Heq|[]]. discriminate Heq.
  - exists lm. split; [exact Hlm|]. split; [|by split].
    vm_compute in Hlm. injection Hlm as <-. reflexivity.
Defined.

(** ** Title and body *)

Lemma massageAt_length (env : Env) (indent : nat) (message : list arg)
    (index : nat) :
  length (massageAt env indent message index) = length message.
Proof.
  unfold massageAt.
  destruct (message !! index) as [a|]; [|done].
  destruct (isObjectLike a); [|done].
  destruct index as [|before]; [by rewrite length_insert|].
  destruct (_ !! before); by rewrite ?length_insert.
Qed.

Lemma massage_length (env : Env) (indent : nat) (message : list arg) :
  length (massage env indent message) = length message.
Proof.
  unfold massage. generalize (seq 0 (length message)). intros indices.
  revert message. induction indices as [|i indices IH]; intros message; [done|].
  simpl. by rewrite IH, massageAt_length.
Qed.

(** Primitive arguments are left as they are. *)
Lemma massage_primitives (env : Env) (indent : nat) (message : list arg) :
  Forall (fun a => isObjectLike a = false) message →
  massage env indent message = message.
Proof.
  intros Hprim. unfold massage.
  assert (∀ indices, foldl (massageAt env indent) message indices = message)
    as Hfold; [|apply Hfold].
  induction indices as [|i indices IH]; [done|].
  simpl. replace (massageAt env indent message i) with message; [done|].
  unfold massageAt. destruct (message !! i) as [a|] eqn:Hi; [|done].
  rewrite Forall_lookup in Hprim. by rewrite (Hprim i a Hi).
Qed.

(** What the constructor computes from the serialized arguments.  If
    there is more than one and the first is truthy, the first is the title
    and the others, joined with single spaces, are the body, cleared when
    it is the very string the title is, as the specification words it.  If
    there is more than one and the first is falsy, the test for a missing
    title fires as well: the joined others take the place of the title and
    the body is emptied.  If there is exactly one, its string as [join]
    renders it is the title and the body is empty, so a call with the one
    string ["hello"] has title ["hello"] and an empty body. *)
Lemma title_and_body (env : Env) (σ : Process) (m : LoggerModule) (c : nat)
    (r : list (string * nat)) (lvl : level) (message : list arg)
    (elapsed : string) :
  configuration m = Some c →
  configurations σ = Some r →
  ∃ lm serialized,
    newLoggerMessage env σ m lvl message elapsed = Return lm
    ∧ serialized
      = massage env (indentOf env (get (deref σ c) "namespace")) message
    ∧ length serialized = length message
    ∧ (∀ first others, serialized = first :: others → others ≠ [] →
         truthyArg first = true →
         title lm = first
         ∧ body lm
           = (if strictEqString first (arrayJoin " " others) then ""
              else arrayJoin " " others)
         ∧ (title lm, body lm) = specTitleBody serialized)
    ∧ (∀ first others, serialized = first :: others → others ≠ [] →
         truthyArg first = false →
         title lm = APrim (VStr (arrayJoin " " others)) ∧ body lm = "")
    ∧ (∀ only, serialized = [only] →
         title lm = APrim (VStr (if isNullish only then "" else toString only))
         ∧ body lm = "")
    ∧ (∀ s, message = [APrim (VStr s)] →
         title lm = APrim (VStr s) ∧ body lm = ""
         ∧ (title lm, body lm) = specTitleBody serialized).
Proof.
  intros Hc Hr. unfold newLoggerMessage. rewrite Hc, Hr.
  set (serialized :=
         massage env (indentOf env (get (deref σ c) "namespace")) message).
  assert (∀ only, serialized = [only] →
            (if (1 <? length serialized)%nat
             then (default (APrim VUndefined) (head serialized), tail serialized)
             else (APrim VUndefined, serialized))
            = (APrim VUndefined, [only])) as Hone.
  { intros only ->. done. }
  assert (∀ first others, serialized = first :: others → others ≠ [] →
            (if (1 <? length serialized)%nat
             then (default (APrim VUndefined) (head serialized), tail serialized)
             else (APrim VUndefined, serialized))
            = (first, others)) as Hmore.
  { intros first [|second others] -> Hne; done. }
  destruct (if (1 <? length serialized)%nat
            then (default (APrim VUndefined) (head serialized), tail serialized)
            else (APrim VUndefined, serialized)) as [title0 rest] eqn:Hsplit.
  eexists; exists serialized. split; [reflexivity|]. simpl.
  split; [done|]. split; [apply massage_length|].
  split; [|split; [|split]].
  - intros first others Hser Hne Htruthy.
    specialize (Hmore first others Hser Hne).
    injection Hmore as -> ->. rewrite Htruthy. simpl.
    split; [done|]. split; [done|].
    rewrite Hser. destruct others as [|second others]; done.
  - intros first others Hser Hne Hfalsy.
    specialize (Hmore first others Hser Hne).
    injection Hmore as -> ->. rewrite Hfalsy. simpl.
    split; [done|]. by rewrite bool_decide_eq_true_2.
  - intros only Hser. specialize (Hone only Hser).
    injection Hone as -> ->. simpl.
    rewrite bool_decide_eq_true_2 by done. by split.
  - intros s Hmsg.
    assert (serialized = [APrim (VStr s)]) as Hser.
    { subst serialized. rewrite Hmsg. apply massage_primitives.
      by repeat constructor. }
    specialize (Hone _ Hser). injection Hone as -> ->. simpl.
    rewrite bool_decide_eq_true_2 by done. by rewrite Hser.
Qed.

Lemma title_and_body_witness :
  ∃ lm,
    newLoggerMessage Scenario.env Scenario.one.1.2 Scenario.one.1.1 LLog
      [APrim (VStr "hello")] "" = Return lm
    ∧ title lm = APrim (VStr "hello")
    ∧ body lm = "".
Proof.
  destruct (title_and_body Scenario.env Scenario.one.1.2 Scenario.one.1.1 0
              [("/app/src/main.js", 0%nat)] LLog [APrim (VStr "hello")] ""
              eq_refl eq_refl)
    as (lm & serialized & Hlm & _ & _ & _ & _ & _ & Hhello).
  exists lm. split; [exact Hlm|].
  destruct (Hhello "hello" eq_refl) as (Htitle & Hbody & _).
  split; [exact Htitle|exact Hbody].
Defined.

(** In [log("", "x")] the first argument does not become the title and
    the second does not become the body. *)
Lemma falsy_first_argument_is_not_title :
  massage Scenario.env
    (indentOf Scenario.env (get (deref Scenario.one.1.2 0) "namespace"))
    [APrim (VStr ""); APrim (VStr "x")]
  = [APrim (VStr ""); APrim (VStr "x")]
  ∧ specTitleBody [APrim (VStr ""); APrim (VStr "x")] = (APrim (VStr ""), "x")
  ∧ ∃ lm,
      newLoggerMessage Scenario.env Scenario.one.1.2 Scenario.one.1.1 LLog
        [APrim (VStr ""); APrim (VStr "x")] "" = Return lm
      ∧ title lm = APrim (VStr "x")
      ∧ body lm = ""
      ∧ (title lm, body lm)
        ≠ specTitleBody [APrim (VStr ""); APrim (VStr "x")].
Proof.
  split; [reflexivity|]. split; [reflexivity|].
  eexists. split; [vm_compute; reflexivity|].
  simpl. repeat split. discriminate.
Qed.

(** C4 (the code at the failing input). A falsy first argument is dropped
    when others follow: [log(0, "x")], [log(false, "x")], [log(null, "x")]
    and [log("", "x")] all give the title ["x"] and an empty body, where
    the first argument should be the title and ["x"] the body.  The same 0
    is a title when it stands alone, and a truthy first argument is the
    title with ["x"] as body: the test for a missing title, meant for the
    call with one argument, also fires on a first argument that is there
    and falsy. *)
Theorem falsy_first_argument_is_dropped :
  let build :=
    fun message =>
      newLoggerMessage Scenario.env Scenario.one.1.2 Scenario.one.1.1 LLog
        message "" in
  let titleBody :=
    fun message =>
      match build message with
      | Return lm => Some (title lm, body lm)
      | Throw _ => None
      end in
  titleBody [APrim (VNum 0); APrim (VStr "x")] = Some (APrim (VStr "x"), "")
  ∧ titleBody [APrim (VBool false); APrim (VStr "x")]
    = Some (APrim (VStr "x"), "")
  ∧ titleBody [APrim VNull; APrim (VStr "x")] = Some (APrim (VStr "x"), "")
  ∧ titleBody [APrim (VStr ""); APrim (VStr "x")]
    = Some (APrim (VStr "x"), "")
  ∧ specTitleBody [APrim (VNum 0); APrim (VStr "x")] = (APrim (VNum 0), "x")
  ∧ titleBody [APrim (VNum 0)] = Some (APrim (VStr "0"), "")
  ∧ titleBody [APrim (VNum 1); APrim (VStr "x")] = Some (APrim (VNum 1), "x")
  ∧ titleBody [APrim (VStr "hello")] = Some (APrim (VStr "hello"), "").
Proof. repeat split; vm_compute; reflexivity. Qed.

(** * Further properties *)

Set Warnings "-clear-no-such-hyp".

(** ** The registry as a map *)

Lemma mapSet_keys (k : string) (v : nat) (r : list (string * nat)) :
  (mapSet k v r).*1 = if decide (k ∈ r.*1) then r.*1 else r.*1 ++ [k].
Proof.
  induction r as [|[k' v'] r IH].
  - case_decide as Hin; [by apply elem_of_nil in Hin|done].
  - cbn [mapSet]. destruct (decide (k' = k)) as [->|Hne].
    + rewrite decide_True; [done|]. rewrite fmap_cons. set_solver.
    + rewrite !fmap_cons, IH. cbn [fst].
      repeat case_decide; try done; exfalso; set_solver.
Qed.

Lemma mapSet_elem (k : string) (v : nat) (r : list (string * nat)) :
  (k, v) ∈ mapSet k v r.
Proof.
  induction r as [|[k' v'] r IH]; simpl; [set_solver|].
  destruct (decide (k' = k)); set_solver.
Qed.

Lemma mapSet_other (k k' : string) (v v' : nat) (r : list (string * nat)) :
  k' ≠ k → (k', v') ∈ mapSet k v r ↔ (k', v') ∈ r.
Proof.
  intros Hne. induction r as [|[k0 v0] r IH]; simpl; [set_solver|].
  destruct (decide (k0 = k)) as [->|Hk]; set_solver.
Qed.

Lemma mapSet_NoDup (k : string) (v : nat) (r : list (string * nat)) :
  NoDup r.*1 → NoDup (mapSet k v r).*1.
Proof.
  intros Hr. rewrite mapSet_keys. destruct (decide (k ∈ r.*1)); [done|].
  apply NoDup_app. split; [done|]. split; [set_solver|apply NoDup_singleton].
Qed.

Lemma mapSet_values (k : string) (v : nat) (r : list (string * nat)) (e : string * nat) :
  e ∈ mapSet k v r → e = (k, v) ∨ e ∈ r.
Proof.
  induction r as [|[k' v'] r IH]; simpl; [set_solver|].
  destruct (decide (k' = k)); set_solver.
Qed.

Lemma mapSet_length (k : string) (v : nat) (r : list (string * nat)) :
  length (mapSet k v r)
  = if decide (k ∈ r.*1) then length r else S (length r).
Proof.
  rewrite <- (length_fmap fst (mapSet k v r)), mapSet_keys.
  destruct (decide (k ∈ r.*1)); rewrite ?length_app, length_fmap; simpl; lia.
Qed.

(** ** [createLogger], step by step *)

Section CreateLoggerSteps.

Variable env : Env.

(** The assignments to the options object amount to one. *)
Lemma createLogger_eq m options now σ manifest name :
  readPkgUp env (requiringModuleFilePath env m) = Some (manifest, name) →
  let o := (optionsObject options σ).1 in
  let σ0 := (optionsObject options σ).2 in
  let m' := mkModule (parentFilename m) (Some o) in
  let σ1 :=
    setConfigurations (registered σ)
      (store o (attached env m manifest name (deref σ0 o)) σ0) in
  createLogger env m options now σ
  = if (length (registered σ) =? 1)%nat
    then
      match writeHeaderToFile env m' now σ1 with
      | (σ2, Return _) =>
          (m',
           setConfigurations
             (mapSet (requiringModuleFilePath env m) o (registered σ)) σ2,
           Normal)
      | (σ2, Throw e) => (m', σ2, Throw e)
      end
    else
      (m',
       setConfigurations
         (mapSet (requiringModuleFilePath env m) o (registered σ)) σ1,
       Normal).
Proof.
  intros Hpkg o σ0 m' σ1. unfold createLogger.
  fold (optionsObject options σ).
  assert (configurations σ0 = configurations σ) as Hconf0.
  { subst σ0. by destruct options. }
  destruct (optionsObject options σ) as [o' σ0'] eqn:Hopt.
  simpl in o, σ0. subst o σ0. rewrite Hpkg.
  set (dd := defaultsDeep (deref σ0' o') (defaultLoggerOptions env)).
  set (τ1 := store o' dd σ0').
  set (loc := <["namespace" := VStr (localNamespace env _)]> (deref τ1 o')).
  set (τ2 := store o' loc τ1).
  set (τ3 := if negb (negb (bool_decide _)) then _ else τ2).
  assert (τ3 = store o' (attached env m manifest name (deref σ0' o')) σ0')
    as Hτ3.
  { unfold store at 1. fold dd.
    assert (configurations τ3 = configurations σ0'
            ∧ files τ3 = files σ0' ∧ console τ3 = console σ0') as (Hc & Hf & Hk).
    { subst τ3. by destruct (negb (negb _)). }
    assert (heap τ3
            = <[o' := attached env m manifest name (deref σ0' o')]> (heap σ0'))
      as Hh.
    { pose proof (createLogger_stores env m (Some o') now σ0' manifest name
                    Hpkg) as [_ Hs].
      unfold optionsObject in Hs. simpl in Hs. unfold attached.
      rewrite <- Hs. unfold createLogger. rewrite Hpkg.
      fold dd. fold τ1. fold loc. fold τ2. fold τ3.
      destruct (configurations τ3) as [r|] eqn:Hr; simpl.
      - rewrite Hr. simpl. destruct (length r =? 1)%nat; [|done].
        pose proof (writeMessageToFile_heap env
                      (mkModule (parentFilename m) (Some o')) now
                      (headerText env now) τ3) as Hw.
        unfold writeHeaderToFile.
        by destruct (writeMessageToFile _ _ _ _ _) as [σ4 [[]|e]].
      - done. }
    destruct τ3 as [h3 c3 f3 k3]. simpl in *. by subst. }
  clearbody τ3. subst τ3. clear τ2 loc τ1.
  subst m' σ1. unfold registered in *. rewrite <- !Hconf0.
  set (cfg := attached env m manifest name (deref σ0' o')).
  set (τ := store o' cfg σ0').
  assert (configurations τ = configurations σ0') as Hcτ by done.
  rewrite !Hcτ.
  destruct (configurations σ0') as [r|] eqn:Hr; cbn [from_option id].
  - assert (setConfigurations r τ = τ) as ->.
    { unfold setConfigurations, τ, store. simpl. by rewrite Hr. }
    assert (configurations τ = Some r) as Hcτ' by done.
    rewrite ?Hcτ'. cbn [from_option id].
    destruct (length r =? 1)%nat.
    + pose proof (writeMessageToFile_configurations env
                    (mkModule (parentFilename m) (Some o')) now
                    (headerText env now) τ) as Hw.
      unfold writeHeaderToFile in *.
      destruct (writeMessageToFile _ _ _ _ _) as [σ4 [[]|e]]; [|done].
      simpl in Hw. rewrite Hw, Hr. done.
    + rewrite ?Hcτ'. done.
  - done.
Qed.

End CreateLoggerSteps.

(** ** How [createLogger] ends *)

Section CreateLoggerEnds.

Variable env : Env.

Lemma createLogger_no_manifest m options now σ :
  readPkgUp env (requiringModuleFilePath env m) = None →
  createLogger env m options now σ
  = (m,
     store (optionsObject options σ).1
       (defaultsDeep
          (deref (optionsObject options σ).2 (optionsObject options σ).1)
          (defaultLoggerOptions env))
       (optionsObject options σ).2,
     Throw TypeError).
Proof.
  intros Hpkg. unfold createLogger. fold (optionsObject options σ).
  destruct (optionsObject options σ) as [o σ0]. simpl. by rewrite Hpkg.
Qed.

(** How the file sink ends for a module that has its configuration. *)
Lemma writeMessageToFile_cases m c now message σ :
  configuration m = Some c →
  let cfg := deref σ c in
  writeMessageToFile env m now message σ
  = if negb (truthy (get cfg "write")) || isNolog env then (σ, Normal)
    else
      match get cfg "logfile" with
      | VStr p =>
          if mkdirp env (dirname env p)
          then
            if streamOpens env p
            then (append p (stamped env now (Str.split (EOL env) message)) σ,
                  Normal)
            else (σ, Normal)
          else (print (ConsoleError
                         ["logger"; "appendMessageToFile"; "fs.mkdirp"]) σ,
                Normal)
      | _ => (σ, Throw TypeError)
      end.
Proof. intros Hc cfg. unfold writeMessageToFile. by rewrite Hc. Qed.

Lemma optionsObject_old options σ l :
  (l < length (heap σ))%nat →
  heap (optionsObject options σ).2 !! l = heap σ !! l.
Proof.
  intros Hl. destruct options as [o|]; simpl; [done|].
  by rewrite lookup_app_l.
Qed.

Lemma optionsObject_frame options σ :
  configurations (optionsObject options σ).2 = configurations σ
  ∧ files (optionsObject options σ).2 = files σ
  ∧ console (optionsObject options σ).2 = console σ.
Proof. by destruct options. Qed.

End CreateLoggerEnds.

(** The registry after a [createLogger] that returns. *)
Lemma createLogger_registry (env : Env) (m : LoggerModule)
    (options : option nat) (now : string) (σ : Process)
    (manifest name : string) :
  readPkgUp env (requiringModuleFilePath env m) = Some (manifest, name) →
  (createLogger env m options now σ).2 = Normal →
  configurations (createLogger env m options now σ).1.2
  = Some (mapSet (requiringModuleFilePath env m) (optionsObject options σ).1
            (registered σ)).
Proof.
  intros Hpkg.
  rewrite (createLogger_eq env m options now σ manifest name Hpkg).
  destruct (length (registered σ) =? 1)%nat; [|done].
  by destruct (writeHeaderToFile _ _ _ _) as [σ2 [[]|e]].
Qed.

(** X1. A [createLogger] that returns has the requiring file in the
    registry, mapped to the configuration object; the keys of the registry
    stay distinct and keep their order, a file already registered keeps its
    place (so creating a logger twice from one file leaves one entry), a new
    file goes last, and the entries of the other files are as before. *)
Theorem createLogger_registers (env : Env) (m : LoggerModule)
    (options : option nat) (now : string) (σ : Process)
    (manifest name : string) :
  readPkgUp env (requiringModuleFilePath env m) = Some (manifest, name) →
  NoDup (registered σ).*1 →
  (createLogger env m options now σ).2 = Normal →
  ∃ r',
    configurations (createLogger env m options now σ).1.2 = Some r'
    ∧ (requiringModuleFilePath env m, (optionsObject options σ).1) ∈ r'
    ∧ NoDup r'.*1
    ∧ r'.*1
      = (if decide (requiringModuleFilePath env m ∈ (registered σ).*1)
         then (registered σ).*1
         else (registered σ).*1 ++ [requiringModuleFilePath env m])
    ∧ (∀ file l, file ≠ requiringModuleFilePath env m →
         (file, l) ∈ r' ↔ (file, l) ∈ registered σ).
Proof.
  intros Hpkg Hnodup Hnormal.
  exists (mapSet (requiringModuleFilePath env m) (optionsObject options σ).1
            (registered σ)).
  split.
  - by apply (createLogger_registry env m options now σ manifest name).
  - split; [apply mapSet_elem|]. split; [by apply mapSet_NoDup|].
    split; [apply mapSet_keys|].
    intros file l Hfile. by apply mapSet_other.
Qed.

Lemma createLogger_registers_witness :
  ∃ r',
    configurations Scenario.twin.1.2 = Some r'
    ∧ ("/app/lib/main.js", 1%nat) ∈ r'
    ∧ NoDup r'.*1
    ∧ r'.*1 = ["/app/src/main.js"; "/app/lib/main.js"]
    ∧ (∀ file l, file ≠ "/app/lib/main.js" →
         (file, l) ∈ r' ↔ (file, l) ∈ registered Scenario.one.1.2).
Proof.
  apply (createLogger_registers Scenario.env
           (Posix.requiredBy "/app/lib/main.js") None "T1" Scenario.one.1.2
           "/app/package.json" "my-app").
  - reflexivity.
  - vm_compute. apply NoDup_singleton.
  - reflexivity.
Defined.


(** X3. A [createLogger] that throws registers nothing and writes
    nothing: the registry, the files and the console are as before.  The
    options object has been changed all the same; without a manifest it
    holds the caller's options with the defaults filled in, and the module
    keeps the configuration it had. *)
Theorem createLogger_throw_frame (env : Env) (m : LoggerModule)
    (options : option nat) (now : string) (σ : Process) (e : exn) :
  (createLogger env m options now σ).2 = Throw e →
  registered (createLogger env m options now σ).1.2 = registered σ
  ∧ files (createLogger env m options now σ).1.2 = files σ
  ∧ console (createLogger env m options now σ).1.2 = console σ
  ∧ (readPkgUp env (requiringModuleFilePath env m) = None →
     (createLogger env m options now σ).1.1 = m
     ∧ (((optionsObject options σ).1
         < length (heap (optionsObject options σ).2))%nat →
        deref (createLogger env m options now σ).1.2
          (optionsObject options σ).1
        = defaultsDeep
            (deref (optionsObject options σ).2 (optionsObject options σ).1)
            (defaultLoggerOptions env))).
Proof.
  intros Hthrow.
  destruct (optionsObject_frame options σ) as (Hc0 & Hf0 & Hk0).
  destruct (readPkgUp env (requiringModuleFilePath env m))
    as [[manifest name]|] eqn:Hpkg.
  - revert Hthrow.
    rewrite (createLogger_eq env m options now σ manifest name Hpkg).
    destruct (length (registered σ) =? 1)%nat; [|done].
    set (m' := mkModule (parentFilename m) (Some (optionsObject options σ).1)).
    unfold writeHeaderToFile.
    rewrite (writeMessageToFile_cases env m' (optionsObject options σ).1)
      by done.
    destruct (_ || _); [done|].
    destruct (get _ "logfile"); simpl; try done;
      try (destruct (mkdirp _ _); [destruct (streamOpens _ _)|]; done).
  - rewrite createLogger_no_manifest by done. simpl.
    unfold registered. simpl. rewrite Hc0, Hf0, Hk0.
    repeat split; try done.
    intros Hlt. by apply deref_store_eq.
Qed.

Lemma createLogger_throw_frame_witness :
  registered More.orphan.1.2 = registered More.orphanOptions.2
  ∧ files More.orphan.1.2 = files More.orphanOptions.2
  ∧ console More.orphan.1.2 = console More.orphanOptions.2
  ∧ (readPkgUp Scenario.env "/tmp/script.js" = None →
     More.orphan.1.1 = Posix.requiredBy "/tmp/script.js"
     ∧ ((0 < length (heap More.orphanOptions.2))%nat →
        deref More.orphan.1.2 0
        = defaultsDeep (deref More.orphanOptions.2 0)
            (defaultLoggerOptions Scenario.env))).
Proof.
  apply (createLogger_throw_frame Scenario.env
           (Posix.requiredBy "/tmp/script.js") (Some 0%nat) "T0"
           More.orphanOptions.2 TypeError).
  reflexivity.
Defined.

(** ** When no header is written *)

(** X4. [createLogger] writes to a file only when it finds exactly one
    entry in the registry: with any other number of entries (none yet, or
    two and more) the files and the console are as before, whatever the
    options and whether the call returns or throws. *)
Theorem createLogger_header (env : Env) (m : LoggerModule)
    (options : option nat) (now : string) (σ : Process) :
  length (registered σ) ≠ 1%nat →
  files (createLogger env m options now σ).1.2 = files σ
  ∧ console (createLogger env m options now σ).1.2 = console σ.
Proof.
  intros Hlen.
  destruct (optionsObject_frame options σ) as (Hc0 & Hf0 & Hk0).
  destruct (readPkgUp env (requiringModuleFilePath env m))
    as [[manifest name]|] eqn:Hpkg.
  - rewrite (createLogger_eq env m options now σ manifest name Hpkg).
    apply Nat.eqb_neq in Hlen. rewrite Hlen. simpl.
    by rewrite Hf0, Hk0.
  - rewrite createLogger_no_manifest by done. simpl.
    by rewrite Hf0, Hk0.
Qed.

Lemma createLogger_header_witness :
  files (createLogger Scenario.env (Posix.requiredBy "/app/src/third.js")
           (Some 2%nat) "T3" More.thirdOptions.2).1.2
  = files More.thirdOptions.2
  ∧ console (createLogger Scenario.env
               (Posix.requiredBy "/app/src/third.js") (Some 2%nat) "T3"
               More.thirdOptions.2).1.2
    = console More.thirdOptions.2.
Proof.
  refine (createLogger_header Scenario.env
            (Posix.requiredBy "/app/src/third.js") (Some 2%nat) "T3"
            More.thirdOptions.2 _).
  vm_compute. discriminate.
Defined.

(** ** Objects [createLogger] leaves alone *)

(** X5. [createLogger] changes no object but the one that becomes the
    configuration: every other object the process had holds what it held,
    whether the call returns or throws. *)
Theorem createLogger_frame (env : Env) (m : LoggerModule)
    (options : option nat) (now : string) (σ : Process) (l : nat) :
  l ≠ (optionsObject options σ).1 →
  (l < length (heap σ))%nat →
  deref (createLogger env m options now σ).1.2 l = deref σ l.
Proof.
  intros Hne Hlt.
  assert (heap (createLogger env m options now σ).1.2 !! l
          = heap (optionsObject options σ).2 !! l) as Hl.
  { destruct (readPkgUp env (requiringModuleFilePath env m))
      as [[manifest name]|] eqn:Hpkg.
    - destruct (createLogger_stores env m options now σ manifest name Hpkg)
        as [_ ->].
      by rewrite list_lookup_insert_ne.
    - rewrite createLogger_no_manifest by done. simpl.
      by rewrite list_lookup_insert_ne. }
  unfold deref. by rewrite Hl, optionsObject_old.
Qed.

Lemma createLogger_frame_witness :
  deref Scenario.two.1.2 0 = deref Scenario.one.1.2 0.
Proof.
  apply (createLogger_frame Scenario.env
           (Posix.requiredBy "/app/node_modules/lodash/index.js") None "T1"
           Scenario.one.1.2 0).
  - vm_compute. discriminate.
  - vm_compute. lia.
Defined.

(** ** One options object for two loggers *)

(** X6. When two modules pass the same options object, both
    configurations are that one object, and it carries the namespace
    derived for the module that came second: from then on the records of
    the first module carry the second module's namespace. *)
Theorem shared_options_share_namespace (env : Env) (m1 m2 : LoggerModule)
    (o : nat) (now1 now2 : string) (σ : Process)
    (manifest1 name1 manifest2 name2 : string) (lvl : level)
    (message : list arg) (elapsed : string) :
  (o < length (heap σ))%nat →
  readPkgUp env (requiringModuleFilePath env m1) = Some (manifest1, name1) →
  readPkgUp env (requiringModuleFilePath env m2) = Some (manifest2, name2) →
  (createLogger env m2 (Some o) now2
     (createLogger env m1 (Some o) now1 σ).1.2).2 = Normal →
  let first := createLogger env m1 (Some o) now1 σ in
  let second := createLogger env m2 (Some o) now2 first.1.2 in
  configuration first.1.1 = Some o
  ∧ configuration second.1.1 = Some o
  ∧ get (deref second.1.2 o) "namespace"
    = VStr (derivedNamespace env m2 manifest2 name2)
  ∧ ∃ lm,
      newLoggerMessage env second.1.2 first.1.1 lvl message elapsed
      = Return lm
      ∧ namespace lm = VStr (derivedNamespace env m2 manifest2 name2).
Proof.
  intros Hlt Hpkg1 Hpkg2 Hnormal first second.
  destruct (createLogger_stores env m1 (Some o) now1 σ manifest1 name1 Hpkg1)
    as [Hc1 Hh1].
  destruct (createLogger_stores env m2 (Some o) now2 first.1.2 manifest2
              name2 Hpkg2) as [Hc2 Hh2].
  simpl in Hc1, Hc2, Hh1, Hh2. fold first in Hc1, Hh1. fold second in Hc2, Hh2.
  assert (get (deref second.1.2 o) "namespace"
          = VStr (derivedNamespace env m2 manifest2 name2)) as Hns.
  { unfold deref. rewrite Hh2, list_lookup_insert_eq.
    - unfold get. simpl. by rewrite lookup_insert_eq.
    - rewrite Hh1, length_insert. done. }
  split; [done|]. split; [done|]. split; [done|].
  assert (is_Some (configurations second.1.2)) as [r Hr].
  { subst second first. revert Hnormal.
    rewrite (createLogger_eq env m2 (Some o) now2 _ manifest2 name2 Hpkg2).
    destruct (length _ =? 1)%nat; [|by eexists].
    destruct (writeHeaderToFile _ _ _ _) as [σ2 [[]|e]]; [by eexists|done]. }
  destruct (newLoggerMessage_returns env second.1.2 first.1.1 o r lvl message
              elapsed Hc1 Hr) as (lm & Hlm & Hnslm & _).
  exists lm. split; [done|]. by rewrite Hnslm.
Qed.

Lemma shared_options_share_namespace_witness :
  configuration More.sharedOne.1.1 = Some 0%nat
  ∧ configuration More.sharedTwo.1.1 = Some 0%nat
  ∧ get (deref More.sharedTwo.1.2 0) "namespace"
    = VStr (derivedNamespace Scenario.env
              (Posix.requiredBy "/app/node_modules/lodash/index.js")
              "/app/node_modules/lodash/package.json" "lodash")
  ∧ ∃ lm,
      newLoggerMessage Scenario.env More.sharedTwo.1.2 More.sharedOne.1.1
        LLog [APrim (VStr "from main")] "" = Return lm
      ∧ namespace lm
        = VStr (derivedNamespace Scenario.env
                  (Posix.requiredBy "/app/node_modules/lodash/index.js")
                  "/app/node_modules/lodash/package.json" "lodash").
Proof.
  apply (shared_options_share_namespace Scenario.env
           (Posix.requiredBy "/app/src/main.js")
           (Posix.requiredBy "/app/node_modules/lodash/index.js") 0 "T0" "T1"
           More.sharedOptions.2 "/app/package.json" "my-app"
           "/app/node_modules/lodash/package.json" "lodash" LLog
           [APrim (VStr "from main")] "").
  - vm_compute. lia.
  - reflexivity.
  - reflexivity.
  - reflexivity.
Defined.

(** ** Splitting and joining *)

Lemma app_cons (c : ascii) (s t : string) :
  String c s +:+ t = String c (s +:+ t).
Proof. done. Qed.

Lemma app_empty_r (s : string) : s +:+ "" = s.
Proof. induction s as [|c s IH]; [done|]. by rewrite app_cons, IH. Qed.

Lemma app_assoc_string (s t u : string) : (s +:+ t) +:+ u = s +:+ t +:+ u.
Proof. induction s as [|c s IH]; [done|]. by rewrite !app_cons, IH. Qed.

Lemma string_of_list_app (l1 l2 : list ascii) :
  String.string_of_list_ascii (l1 ++ l2)
  = String.string_of_list_ascii l1 +:+ String.string_of_list_ascii l2.
Proof. induction l1 as [|c l1 IH]; [done|]. simpl. by rewrite IH. Qed.

Lemma of_rev_cons (c : ascii) (cur : list ascii) :
  Str.of_rev (c :: cur) = Str.of_rev cur +:+ String c "".
Proof. unfold Str.of_rev. simpl. by rewrite string_of_list_app. Qed.

Lemma prefix_split (sep s : string) :
  String.prefix sep s = true → ∃ rest, s = sep +:+ rest.
Proof.
  revert s. induction sep as [|c sep IH]; intros s Hs; [by exists s|].
  destruct s as [|d s]; [done|]. simpl in Hs.
  destruct (Ascii.ascii_dec c d) as [->|]; [|done].
  destruct (IH s Hs) as [rest ->]. by exists rest.
Qed.

Lemma dropString_app (sep rest : string) :
  dropString (String.length sep) (sep +:+ rest) = rest.
Proof. induction sep as [|c sep IH]; [done|]. by rewrite app_cons. Qed.

Lemma split_go_nonempty (sep : string) (skip : nat) (cur : list ascii)
    (s : string) :
  Str.split_go sep skip cur s ≠ [].
Proof.
  revert skip cur. induction s as [|c s IH]; intros skip cur; [done|].
  cbn [Str.split_go]. destruct skip; [|apply IH].
  destruct (String.prefix sep (String c s)); [done|apply IH].
Qed.

Lemma join_cons (sep x : string) (l : list string) :
  l ≠ [] → Str.join sep (x :: l) = x +:+ sep +:+ Str.join sep l.
Proof. by destruct l. Qed.

Lemma split_go_join (sep : string) (skip : nat) (cur : list ascii)
    (s : string) :
  sep ≠ "" →
  Str.join sep (Str.split_go sep skip cur s)
  = Str.of_rev cur +:+ dropString skip s.
Proof.
  intros Hsep. revert skip cur.
  induction s as [|c s IH]; intros skip cur.
  - simpl. destruct skip; simpl; by rewrite app_empty_r.
  - cbn [Str.split_go]. destruct skip as [|k].
    + destruct (String.prefix sep (String c s)) eqn:Hpre.
      * rewrite join_cons by apply split_go_nonempty.
        rewrite IH. destruct (prefix_split _ _ Hpre) as [rest Hrest].
        destruct sep as [|d sep]; [done|].
        rewrite app_cons in Hrest. injection Hrest as -> ->.
        replace (String.length (String d sep) - 1)%nat
          with (String.length sep) by (simpl; lia).
        rewrite dropString_app. reflexivity.
      * rewrite IH, of_rev_cons. simpl. by rewrite app_assoc_string.
    + by rewrite IH.
Qed.

(** Joining the pieces of a split with the separator gives the string
    back. *)
Lemma join_split (sep s : string) :
  sep ≠ "" → Str.join sep (Str.split sep s) = s.
Proof. intros Hsep. unfold Str.split. by rewrite split_go_join. Qed.

(** ** What a log call does to the process *)

Section LogCalls.

Variable env : Env.

Lemma printToAny_eq m lvl message now elapsed σ lm :
  message ≠ [] →
  newLoggerMessage env σ m lvl message elapsed = Return lm →
  printToAny env m lvl message now elapsed σ
  = writeMessageToFile env m now (fileLine env lm)
      (print (consoleLine env lm) σ).
Proof.
  intros Hne Hlm. unfold printToAny, consoleLine.
  case_bool_decide; unfold printToBrowserConsole, printToTty;
    (destruct message; [done|]); simpl; by rewrite Hlm.
Qed.

Lemma printToAny_throws m lvl message now elapsed σ e :
  message ≠ [] →
  newLoggerMessage env σ m lvl message elapsed = Throw e →
  printToAny env m lvl message now elapsed σ = (σ, Throw e).
Proof.
  intros Hne Hlm. unfold printToAny.
  case_bool_decide; unfold printToBrowserConsole, printToTty;
    (destruct message; [done|]); simpl; by rewrite Hlm.
Qed.

Lemma grownFrom_refl σ : grownFrom σ σ.
Proof.
  split.
  - intros p content Hp. exists "". by rewrite app_empty_r.
  - exists []. by rewrite app_nil_r.
Qed.

Lemma grownFrom_trans σ1 σ2 σ3 :
  grownFrom σ1 σ2 → grownFrom σ2 σ3 → grownFrom σ1 σ3.
Proof.
  intros [Hf12 [k12 Hk12]] [Hf23 [k23 Hk23]]. split.
  - intros p content Hp.
    destruct (Hf12 p content Hp) as [more1 H1].
    destruct (Hf23 p _ H1) as [more2 H2].
    exists (more1 +:+ more2). by rewrite H2, app_assoc_string.
  - exists (k12 ++ k23). by rewrite Hk23, Hk12, app_assoc.
Qed.

Lemma grownFrom_print e σ : grownFrom σ (print e σ).
Proof.
  split.
  - intros p content Hp. exists "". by rewrite app_empty_r.
  - by exists [e].
Qed.

Lemma grownFrom_append p chunk σ : grownFrom σ (append p chunk σ).
Proof.
  split.
  - intros q content Hq. simpl.
    destruct (decide (p = q)) as [->|Hne].
    + exists chunk. by rewrite lookup_insert_eq, Hq.
    + exists "". by rewrite lookup_insert_ne, app_empty_r.
  - exists []. simpl. by rewrite app_nil_r.
Qed.

Lemma writeMessageToFile_grows m now message σ :
  grownFrom σ (writeMessageToFile env m now message σ).1.
Proof.
  unfold writeMessageToFile.
  destruct (configuration m); [|apply grownFrom_refl].
  destruct (_ || _); [apply grownFrom_refl|].
  destruct (get _ "logfile"); try apply grownFrom_refl.
  destruct (mkdirp _ _); [|apply grownFrom_print].
  destruct (streamOpens _ _); [apply grownFrom_append|apply grownFrom_refl].
Qed.

Lemma printToAny_effect m lvl message now elapsed σ :
  heap (printToAny env m lvl message now elapsed σ).1 = heap σ
  ∧ configurations (printToAny env m lvl message now elapsed σ).1
    = configurations σ
  ∧ grownFrom σ (printToAny env m lvl message now elapsed σ).1.
Proof.
  destruct message as [|a message].
  { unfold printToAny. case_bool_decide; simpl; by auto using grownFrom_refl. }
  destruct (newLoggerMessage env σ m lvl (a :: message) elapsed)
    as [lm|e] eqn:Hlm.
  - rewrite (printToAny_eq m lvl (a :: message) now elapsed σ lm) by done.
    rewrite writeMessageToFile_heap, writeMessageToFile_configurations.
    split; [done|]. split; [done|].
    eapply grownFrom_trans; [apply grownFrom_print|].
    apply writeMessageToFile_grows.
  - rewrite (printToAny_throws m lvl (a :: message) now elapsed σ e) by done.
    by auto using grownFrom_refl.
Qed.

Lemma logMethod_effect m lvl message now elapsed σ :
  heap (logMethod lvl env m message now elapsed σ).1 = heap σ
  ∧ configurations (logMethod lvl env m message now elapsed σ).1
    = configurations σ
  ∧ grownFrom σ (logMethod lvl env m message now elapsed σ).1.
Proof.
  destruct lvl; simpl; try apply printToAny_effect.
  unfold loggerInstance.debug.
  destruct (isDebug env); [apply printToAny_effect|].
  by auto using grownFrom_refl.
Qed.

Lemma logMethod_reaches m lvl message now elapsed σ :
  reachesPrint env lvl →
  logMethod lvl env m message now elapsed σ
  = printToAny env m lvl message now elapsed σ.
Proof.
  intros [Hlvl|Hdebug]; destruct lvl; try done.
  simpl. unfold loggerInstance.debug. by rewrite Hdebug.
Qed.

End LogCalls.

(** X7. Logging leaves the configurations alone and only ever appends:
    after any sequence of log calls, whether or not one of them throws,
    every object and the registry are as before, every file holds what it
    held followed by what was appended, and the console holds its earlier
    lines followed by the new ones. *)
Theorem logging_only_appends (env : Env) (m : LoggerModule)
    (calls : list logCall) (σ : Process) :
  heap (runCalls env m calls σ).1 = heap σ
  ∧ configurations (runCalls env m calls σ).1 = configurations σ
  ∧ grownFrom σ (runCalls env m calls σ).1.
Proof.
  revert σ. induction calls as [|call calls IH]; intros σ.
  - simpl. by auto using grownFrom_refl.
  - simpl.
    destruct (logMethod_effect env m (callLevel call) (callArguments call)
                (callNow call) (callElapsed call) σ) as (Hh & Hc & Hg).
    destruct (logMethod _ _ _ _ _ _ _) as [σ' [[]|e]]; simpl in *.
    + destruct (IH σ') as (IHh & IHc & IHg).
      rewrite IHh, IHc. split; [done|]. split; [done|].
      by eapply grownFrom_trans.
    + done.
Qed.

(** X9. When the directory of the logfile cannot be made, the log call
    still returns normally: it prints its console line, reports the
    failure with one [console.error] and writes to no file. *)
Theorem log_call_mkdirp_fails (env : Env) (m : LoggerModule)
    (r : list (string * nat)) (lvl : level) (message : list arg)
    (now elapsed : string) (σ : Process) (p : string) :
  message ≠ [] →
  reachesPrint env lvl →
  configurations σ = Some r →
  sinkOpen env σ m p →
  mkdirp env (dirname env p) = false →
  ∃ lm,
    newLoggerMessage env σ m lvl message elapsed = Return lm
    ∧ (logMethod lvl env m message now elapsed σ).2 = Normal
    ∧ files (logMethod lvl env m message now elapsed σ).1 = files σ
    ∧ console (logMethod lvl env m message now elapsed σ).1
      = console σ
          ++ [consoleLine env lm;
              ConsoleError ["logger"; "appendMessageToFile"; "fs.mkdirp"]].
Proof.
  intros Hne Hreach Hr (c & Hc & Hwrite & Hnolog & Hlogfile) Hmkdirp.
  destruct (newLoggerMessage_returns env σ m c r lvl message elapsed Hc Hr)
    as (lm & Hlm & _).
  exists lm. split; [done|].
  rewrite logMethod_reaches by done.
  rewrite (printToAny_eq env m lvl message now elapsed σ lm) by done.
  rewrite (writeMessageToFile_cases env m c) by done.
  change (deref (print (consoleLine env lm) σ) c) with (deref σ c).
  rewrite Hwrite, Hnolog, Hlogfile, Hmkdirp. simpl.
  by rewrite <- app_assoc.
Qed.

Lemma log_call_mkdirp_fails_witness :
  ∃ lm,
    newLoggerMessage Writing.failing Scenario.first.1.2 Scenario.first.1.1
      LWarn [APrim (VStr "disk")] "" = Return lm
    ∧ (logMethod LWarn Writing.failing Scenario.first.1.1
         [APrim (VStr "disk")] "T1" "" Scenario.first.1.2).2 = Normal
    ∧ files (logMethod LWarn Writing.failing Scenario.first.1.1
               [APrim (VStr "disk")] "T1" "" Scenario.first.1.2).1
      = files Scenario.first.1.2
    ∧ console (logMethod LWarn Writing.failing Scenario.first.1.1
                 [APrim (VStr "disk")] "T1" "" Scenario.first.1.2).1
      = console Scenario.first.1.2
          ++ [consoleLine Writing.failing lm;
              ConsoleError ["logger"; "appendMessageToFile"; "fs.mkdirp"]].
Proof.
  refine (log_call_mkdirp_fails Writing.failing Scenario.first.1.1
            [("/app/src/main.js", 0%nat)] LWarn [APrim (VStr "disk")] "T1" ""
            Scenario.first.1.2 Scenario.logfile _ _ _ _ _).
  - discriminate.
  - left. discriminate.
  - vm_compute. reflexivity.
  - exists 0%nat. repeat split; vm_compute; reflexivity.
  - reflexivity.
Defined.

(** X10. With a truthy [write], the override off and a [logfile] that is
    not a string, the log call throws a [TypeError] to its caller, after
    the console line is printed; no file changes. *)
Theorem log_call_throws_without_path (env : Env) (m : LoggerModule)
    (c : nat) (r : list (string * nat)) (lvl : level) (message : list arg)
    (now elapsed : string) (σ : Process) :
  message ≠ [] →
  reachesPrint env lvl →
  configuration m = Some c →
  configurations σ = Some r →
  truthy (get (deref σ c) "write") = true →
  isNolog env = false →
  (∀ p, get (deref σ c) "logfile" ≠ VStr p) →
  ∃ lm,
    newLoggerMessage env σ m lvl message elapsed = Return lm
    ∧ logMethod lvl env m message now elapsed σ
      = (print (consoleLine env lm) σ, Throw TypeError).
Proof.
  intros Hne Hreach Hc Hr Hwrite Hnolog Hlogfile.
  destruct (newLoggerMessage_returns env σ m c r lvl message elapsed Hc Hr)
    as (lm & Hlm & _).
  exists lm. split; [done|].
  rewrite logMethod_reaches by done.
  rewrite (printToAny_eq env m lvl message now elapsed σ lm) by done.
  rewrite (writeMessageToFile_cases env m c) by done.
  change (deref (print (consoleLine env lm) σ) c) with (deref σ c).
  rewrite Hwrite, Hnolog. simpl.
  destruct (get (deref σ c) "logfile") as [| | | |p] eqn:Hl; try done.
  by destruct (Hlogfile p).
Qed.

Lemma log_call_throws_without_path_witness :
  ∃ lm,
    newLoggerMessage Scenario.env Writing.noPath.1.2 Writing.noPath.1.1 LInfo
      [APrim (VStr "hello")] "" = Return lm
    ∧ logMethod LInfo Scenario.env Writing.noPath.1.1 [APrim (VStr "hello")]
        "T1" "" Writing.noPath.1.2
      = (print (consoleLine Scenario.env lm) Writing.noPath.1.2,
         Throw TypeError).
Proof.
  refine (log_call_throws_without_path Scenario.env Writing.noPath.1.1 0
            [("/app/src/main.js", 0%nat)] LInfo [APrim (VStr "hello")] "T1" ""
            Writing.noPath.1.2 _ _ _ _ _ _ _).
  - discriminate.
  - left. discriminate.
  - vm_compute. reflexivity.
  - vm_compute. reflexivity.
  - vm_compute. reflexivity.
  - reflexivity.
  - intros p. vm_compute. discriminate.
Defined.

(** ** The loop over the arguments *)

Section Massage.

Variables (env : Env) (indent : nat).

Local Ltac ltb_cases :=
  repeat match goal with
         | |- context [(?a <? ?b)%nat] => destruct (Nat.ltb_spec a b)
         end;
  try lia.

Lemma massagedUpTo_zero message : massagedUpTo env indent message 0 = message.
Proof.
  apply list_eq. intros i. unfold massagedUpTo.
  rewrite list_lookup_imap. destruct (message !! i); [|done]. simpl.
  by ltb_cases.
Qed.

Lemma massagedUpTo_all message :
  massagedUpTo env indent message (length message)
  = massaged env indent message.
Proof.
  apply list_eq. intros i. unfold massagedUpTo, massaged.
  rewrite !list_lookup_imap. destruct (message !! i) as [a|] eqn:Hi; [|done].
  simpl. f_equal. apply lookup_lt_Some in Hi as Hlt.
  ltb_cases; [done|].
  unfold massagedAt. destruct (isObjectLike a); [done|].
  by rewrite lookup_ge_None_2 by lia.
Qed.

Lemma massagedUpTo_lookup message k i :
  massagedUpTo env indent message k !! i
  = (fun a =>
       if (S i <? k)%nat then massagedAt env indent message i a
       else if (i <? k)%nat
       then (if isObjectLike a then APrim (VStr (serialize env indent a))
             else a)
       else a) <$> message !! i.
Proof. unfold massagedUpTo. by rewrite list_lookup_imap. Qed.

Lemma massageAt_step message k :
  (k < length message)%nat →
  massageAt env indent (massagedUpTo env indent message k) k
  = massagedUpTo env indent message (S k).
Proof.
  intros Hk.
  destruct (lookup_lt_is_Some_2 message k Hk) as [a Ha].
  unfold massageAt.
  rewrite massagedUpTo_lookup, Ha. simpl.
  replace (S k <? k)%nat with false by (symmetry; apply Nat.ltb_ge; lia).
  replace (k <? k)%nat with false by (symmetry; apply Nat.ltb_ge; lia).
  assert (length (massagedUpTo env indent message k) = length message)
    as Hlen by apply length_imap.
  destruct (isObjectLike a) eqn:Hobj.
  - destruct k as [|before].
    + apply list_eq. intros i. rewrite massagedUpTo_lookup.
      destruct (decide (i = 0%nat)) as [->|Hi].
      * rewrite list_lookup_insert_eq by lia. rewrite Ha. simpl.
        by rewrite Hobj.
      * rewrite list_lookup_insert_ne by done.
        rewrite massagedUpTo_lookup.
        destruct (message !! i); [|done]. simpl. by ltb_cases.
    + assert (before < length message)%nat as Hb by lia.
      destruct (lookup_lt_is_Some_2 message before Hb) as [b Hbefore].
      rewrite list_lookup_insert_ne by lia.
      rewrite massagedUpTo_lookup, Hbefore. simpl.
      replace (S before <? S before)%nat with false
        by (symmetry; apply Nat.ltb_ge; lia).
      replace (before <? S before)%nat with true
        by (symmetry; apply Nat.ltb_lt; lia).
      apply list_eq. intros i. rewrite massagedUpTo_lookup.
      destruct (decide (i = before)) as [->|Hib].
      * rewrite list_lookup_insert_eq by (rewrite length_insert; lia).
        rewrite Hbefore. simpl.
        replace (S before <? S (S before))%nat with true
          by (symmetry; apply Nat.ltb_lt; lia).
        unfold massagedAt. rewrite Ha, Hobj.
        by destruct (isObjectLike b).
      * rewrite list_lookup_insert_ne by done.
        destruct (decide (i = S before)) as [->|Hik].
        -- rewrite list_lookup_insert_eq by lia. rewrite Ha. simpl.
           ltb_cases. by rewrite Hobj.
        -- rewrite list_lookup_insert_ne by done.
           rewrite massagedUpTo_lookup.
           destruct (message !! i); [|done]. simpl. by ltb_cases.
  - apply list_eq. intros i. rewrite !massagedUpTo_lookup.
    destruct (message !! i) as [b|] eqn:Hi; [|done]. simpl. f_equal.
    destruct (decide (S i = k)) as [<-|Hik].
    + ltb_cases. unfold massagedAt. rewrite Ha, Hobj.
      by destruct (isObjectLike b).
    + destruct (decide (i = k)) as [->|Hik'].
      * ltb_cases. rewrite Ha in Hi. injection Hi as <-. by rewrite Hobj.
      * by ltb_cases.
Qed.

Lemma massage_upTo message k :
  (k ≤ length message)%nat →
  foldl (massageAt env indent) message (seq 0 k)
  = massagedUpTo env indent message k.
Proof.
  induction k as [|k IH]; intros Hk.
  - by rewrite massagedUpTo_zero.
  - rewrite seq_S, foldl_app, IH by lia. simpl.
    apply massageAt_step. lia.
Qed.

End Massage.

(** X11. The loop of the constructor in closed form: each array and each
    other object is replaced with its text, each primitive that stands
    just before one is replaced with its string, every other argument is
    left as it is.  So the arguments keep their number, and none of them
    is an array or an object afterwards. *)
Theorem massage_closed_form (env : Env) (indent : nat) (message : list arg) :
  massage env indent message = massaged env indent message
  ∧ length (massage env indent message) = length message
  ∧ Forall (fun a => isObjectLike a = false) (massage env indent message)
  ∧ ∀ i a, message !! i = Some a →
      massage env indent message !! i
      = Some
          (if isObjectLike a then APrim (VStr (serialize env indent a))
           else
             match message !! S i with
             | Some next =>
                 if isObjectLike next then APrim (VStr (toString a)) else a
             | None => a
             end).
Proof.
  assert (massage env indent message = massaged env indent message) as Heq.
  { unfold massage. rewrite massage_upTo by done. apply massagedUpTo_all. }
  split; [done|]. split; [apply massage_length|]. rewrite Heq. split.
  - apply Forall_lookup. intros i x. unfold massaged.
    rewrite list_lookup_imap.
    destruct (message !! i) as [a|]; [|done]. simpl. intros [= <-].
    unfold massagedAt. destruct (isObjectLike a) eqn:Ha; [done|].
    destruct (message !! S i) as [next|]; [|done].
    by destruct (isObjectLike next).
  - intros i a Hi. unfold massaged. by rewrite list_lookup_imap, Hi.
Qed.

(** ** Threads, once more *)

Lemma firstAt_elem (l : list value) (x : value) :
  x ∈ l ↔ ∃ i, firstAt l x i.
Proof.
  split.
  - intros [j Hj]%list_elem_of_lookup_1.
    destruct (firstAt_below l x j Hj) as (i & _ & Hi). by exists i.
  - intros (i & Hi & _). by eapply list_elem_of_lookup_2.
Qed.

Lemma indexOf_app_elem (l l' : list value) (x : value) :
  x ∈ l → indexOf (l ++ l') x = indexOf l x.
Proof.
  intros (i & Hi & Hfirst)%firstAt_elem.
  rewrite (indexOf_first l x i) by done.
  apply indexOf_first. split.
  - by apply lookup_app_l_Some.
  - intros j Hj. rewrite lookup_app_l; [by apply Hfirst|].
    apply lookup_lt_Some in Hi. lia.
Qed.

(** X12. The thread of a record is 0 or 1, and it is 0 exactly when the
    caller's namespace is registered and the first place that holds it is
    an even one; on a terminal the namespace is underlined exactly then. *)
Theorem thread_zero_iff (env : Env) (σ : Process) (m : LoggerModule) (c : nat)
    (r : list (string * nat)) (lvl : level) (message : list arg)
    (elapsed : string) :
  configuration m = Some c →
  configurations σ = Some r →
  ∃ lm,
    newLoggerMessage env σ m lvl message elapsed = Return lm
    ∧ (thread lm = 0 ∨ thread lm = 1)
    ∧ (thread lm = 0
       ↔ ∃ i : nat, firstAt (namespacesList σ r) (namespace lm) i
           ∧ Z.of_nat i `mod` 2 = 0)
    ∧ (contextType env ≠ "browser" →
       ∃ underline,
         consoleLine env lm
         = ConsoleTty (emoji lm) (chalkstyle lm) underline
             (primToString (namespace lm)) (toString (title lm)) (body lm)
             (timestamp lm)
         ∧ (underline = true ↔ thread lm = 0)).
Proof.
  intros Hc Hr.
  destruct (newLoggerMessage_returns env σ m c r lvl message elapsed Hc Hr)
    as (lm & Hlm & Hns & Hthread).
  exists lm. split; [done|].
  assert (thread lm
          = indexOf (namespacesList σ r) (namespace lm) `mod` 2) as Hmod.
  { by rewrite Hthread, Hns, land_one_mod. }
  split; [|split].
  - pose proof (Z.mod_pos_bound
                  (indexOf (namespacesList σ r) (namespace lm)) 2). lia.
  - rewrite Hmod.
    destruct (decide (namespace lm ∈ namespacesList σ r)) as [Hin|Hnotin].
    + apply firstAt_elem in Hin as [i Hi].
      rewrite (indexOf_first _ _ i Hi). split; [by exists i|].
      intros (j & Hj & Heven).
      pose proof (indexOf_first _ _ i Hi) as Ei.
      pose proof (indexOf_first _ _ j Hj) as Ej.
      assert (i = j) as -> by lia. done.
    + rewrite indexOf_notin by done. split; [done|].
      intros (i & Hi & _). destruct Hnotin. apply firstAt_elem. by exists i.
  - intros Htty. unfold consoleLine.
    rewrite bool_decide_eq_false_2 by done.
    eexists. split; [reflexivity|]. apply Z.eqb_eq.
Qed.

Lemma thread_zero_iff_witness :
  ∃ lm,
    newLoggerMessage Scenario.env Scenario.four.1.2 Scenario.two.1.1 LLog
      [APrim (VStr "hello")] "" = Return lm
    ∧ thread lm = 1.
Proof.
  destruct (thread_zero_iff Scenario.env Scenario.four.1.2 Scenario.two.1.1 1
              Scenario.quartet LLog [APrim (VStr "hello")] "" eq_refl eq_refl)
    as (lm & Hlm & [Hzero|Hone] & _).
  - exfalso. vm_compute in Hlm. injection Hlm as <-. discriminate Hzero.
  - exists lm. split; [exact Hlm|exact Hone].
Defined.

(** ** [setConfiguration], further *)

(** X13. Passing a module's own configuration back to it changes
    nothing: [setConfiguration(getConfiguration())] leaves the module and
    the process as they are. *)
Theorem setConfiguration_own (m : LoggerModule) (c : nat) (σ : Process) :
  configuration m = Some c →
  setConfiguration m (getConfiguration m) σ = (m, σ).
Proof.
  intros Hc. unfold setConfiguration, getConfiguration. rewrite Hc. simpl.
  rewrite defaultsDeep_same.
  destruct m as [parent conf], σ as [h r f k]. simpl in *. subst conf.
  f_equal. unfold store, deref. simpl. f_equal.
  destruct (h !! c) as [x|] eqn:Hx; simpl.
  - by apply list_insert_id.
  - apply list_insert_ge. by apply lookup_ge_None.
Qed.

Lemma setConfiguration_own_witness :
  Later.own = (Scenario.one.1.1, Scenario.one.1.2).
Proof.
  apply (setConfiguration_own Scenario.one.1.1 0 Scenario.one.1.2).
  reflexivity.
Defined.

(** X14. After [setConfiguration] with an options object, each property
    of the configuration reads as the caller's value wherever the caller's
    object has one that is not [undefined] ([null] counts as a value), and
    as the previous configuration's value everywhere else: a property set
    to [undefined] is treated as left out. *)
Theorem setConfiguration_fields (m : LoggerModule) (σ : Process) (c o : nat)
    (partial previous : obj) (k : string) :
  configuration m = Some c →
  heap σ !! c = Some previous →
  heap σ !! o = Some partial →
  configuration (setConfiguration m (Some o) σ).1 = Some o
  ∧ get (deref (setConfiguration m (Some o) σ).2 o) k
    = (if decide (get partial k = VUndefined) then get previous k
       else get partial k).
Proof.
  intros Hc Hprev Hpart. split; [done|].
  unfold setConfiguration. simpl. rewrite Hc.
  rewrite deref_store_eq by (by apply lookup_lt_Some in Hpart).
  rewrite (deref_lookup σ o partial), (deref_lookup σ c previous) by done.
  unfold get. rewrite defaultsDeep_lookup.
  destruct (partial !! k) as [[]|], (previous !! k); simpl; done.
Qed.

Lemma setConfiguration_fields_witness :
  configuration
    (setConfiguration Scenario.one.1.1 (Some 1%nat)
       (alloc Later.holes Scenario.one.1.2).2).1 = Some 1%nat
  ∧ get (deref
           (setConfiguration Scenario.one.1.1 (Some 1%nat)
              (alloc Later.holes Scenario.one.1.2).2).2 1) "write"
    = (if decide (get Later.holes "write" = VUndefined)
       then get (deref Scenario.one.1.2 0) "write"
       else get Later.holes "write").
Proof.
  apply (setConfiguration_fields Scenario.one.1.1
           (alloc Later.holes Scenario.one.1.2).2 0 1 Later.holes
           (deref Scenario.one.1.2 0) "write").
  - reflexivity.
  - vm_compute. reflexivity.
  - vm_compute. reflexivity.
Defined.

(** X15. [setConfiguration] touches nothing but the options object: the
    registry, the files, the console and every other object are as
    before, so the registry goes on holding the object stored at creation.
    Called without an argument it makes a new object that holds a copy of
    the current configuration. *)
Theorem setConfiguration_frame (m : LoggerModule) (options : option nat)
    (σ : Process) (c : nat) (previous : obj) :
  configuration m = Some c →
  heap σ !! c = Some previous →
  configurations (setConfiguration m options σ).2 = configurations σ
  ∧ files (setConfiguration m options σ).2 = files σ
  ∧ console (setConfiguration m options σ).2 = console σ
  ∧ (∀ l, l ≠ (optionsObject options σ).1 → (l < length (heap σ))%nat →
       deref (setConfiguration m options σ).2 l = deref σ l)
  ∧ (options = None →
     configuration (setConfiguration m options σ).1 = Some (length (heap σ))
     ∧ deref (setConfiguration m options σ).2 (length (heap σ)) = previous
     ∧ deref (setConfiguration m options σ).2 c = previous).
Proof.
  intros Hc Hprev. unfold setConfiguration.
  fold (optionsObject options σ).
  destruct (optionsObject_frame options σ) as (Hc0 & Hf0 & Hk0).
  pose proof (optionsObject_old options σ) as Hold.
  destruct (optionsObject options σ) as [o σ0] eqn:Hopt. simpl in *.
  rewrite Hc. simpl.
  split; [done|]. split; [done|]. split; [done|]. split.
  - intros l Hne Hlt. unfold deref. simpl.
    by rewrite list_lookup_insert_ne, Hold.
  - intros ->. simpl in Hopt. injection Hopt as <- <-.
    pose proof (lookup_lt_Some _ _ _ Hprev) as Hlt.
    split; [done|].
    assert (deref (alloc ∅ σ).2 c = previous) as Hdc.
    { unfold deref. simpl. by rewrite lookup_app_l, Hprev. }
    assert (deref (alloc ∅ σ).2 (length (heap σ)) = ∅) as Hdn.
    { apply (deref_alloc σ ∅). }
    simpl in Hdc, Hdn. rewrite Hdc, Hdn. split.
    + unfold deref. simpl.
      rewrite list_lookup_insert_eq by (rewrite length_app; simpl; lia).
      simpl. apply map_eq. intros k. rewrite defaultsDeep_lookup.
      rewrite lookup_empty. by destruct (previous !! k).
    + unfold deref. simpl. rewrite list_lookup_insert_ne by lia.
      by rewrite lookup_app_l, Hprev.
Qed.

Lemma setConfiguration_frame_witness :
  configurations Later.bare.2 = configurations Scenario.one.1.2
  ∧ files Later.bare.2 = files Scenario.one.1.2
  ∧ console Later.bare.2 = console Scenario.one.1.2
  ∧ (∀ l, l ≠ (optionsObject None Scenario.one.1.2).1 →
       (l < length (heap Scenario.one.1.2))%nat →
       deref Later.bare.2 l = deref Scenario.one.1.2 l)
  ∧ (@None nat = None →
     configuration Later.bare.1 = Some (length (heap Scenario.one.1.2))
     ∧ deref Later.bare.2 (length (heap Scenario.one.1.2))
       = deref Scenario.one.1.2 0
     ∧ deref Later.bare.2 0 = deref Scenario.one.1.2 0).
Proof.
  apply (setConfiguration_frame Scenario.one.1.1 None Scenario.one.1.2 0
           (deref Scenario.one.1.2 0)).
  - reflexivity.
  - vm_compute. reflexivity.
Defined.

(** ** The configuration of a new logger, property by property *)

Lemma createLogger_attached (env : Env) (m : LoggerModule)
    (options : option nat) (now : string) (σ : Process) (supplied : obj)
    (manifest name : string) :
  match options with
  | Some o => heap σ !! o = Some supplied
  | None => supplied = ∅
  end →
  readPkgUp env (requiringModuleFilePath env m) = Some (manifest, name) →
  deref (createLogger env m options now σ).1.2 (optionsObject options σ).1
  = attached env m manifest name supplied.
Proof.
  intros Hopt Hpkg.
  destruct (createLogger_stores env m options now σ manifest name Hpkg)
    as [_ Hheap].
  assert (deref (optionsObject options σ).2 (optionsObject options σ).1
          = supplied
          ∧ ((optionsObject options σ).1
             < length (heap (optionsObject options σ).2))%nat) as [Hd Hlt].
  { destruct options as [o|]; simpl.
    - split; [by apply deref_lookup|by apply lookup_lt_Some in Hopt].
    - subst supplied. split; [apply (deref_alloc σ ∅)|].
      rewrite length_app. simpl. lia. }
  unfold deref at 1. rewrite Hheap, list_lookup_insert_eq by done.
  simpl. by rewrite Hd.
Qed.

Lemma defaults_defined (env : Env) (k : string) :
  k = "write" ∨ k = "timestamp" ∨ k = "logfile" →
  ∃ v, defaultLoggerOptions env !! k = Some v ∧ v ≠ VUndefined.
Proof.
  intros [->|[->| ->]]; eexists; (split; [reflexivity|done]).
Qed.

(** X16. In the configuration of a new logger every property other than
    [namespace] reads as the caller's value where the caller's object has
    one that is not [undefined], and as the default everywhere else;
    [namespace] is the derived string.  So [write], [timestamp] and
    [logfile] are never [undefined] there, whatever the caller passes. *)
Theorem createLogger_fields (env : Env) (m : LoggerModule)
    (options : option nat) (now : string) (σ : Process) (supplied : obj)
    (manifest name : string) :
  match options with
  | Some o => heap σ !! o = Some supplied
  | None => supplied = ∅
  end →
  readPkgUp env (requiringModuleFilePath env m) = Some (manifest, name) →
  (∀ k, k ≠ "namespace" →
     get (deref (createLogger env m options now σ).1.2
            (optionsObject options σ).1) k
     = (if decide (get supplied k = VUndefined)
        then get (defaultLoggerOptions env) k
        else get supplied k))
  ∧ get (deref (createLogger env m options now σ).1.2
           (optionsObject options σ).1) "namespace"
    = VStr (derivedNamespace env m manifest name)
  ∧ (∀ k, k = "write" ∨ k = "timestamp" ∨ k = "logfile" →
       get (deref (createLogger env m options now σ).1.2
              (optionsObject options σ).1) k ≠ VUndefined).
Proof.
  intros Hopt Hpkg.
  rewrite (createLogger_attached env m options now σ supplied manifest name)
    by done.
  assert (∀ k, k ≠ "namespace" →
            get (attached env m manifest name supplied) k
            = (if decide (get supplied k = VUndefined)
               then get (defaultLoggerOptions env) k
               else get supplied k)) as Hfields.
  { intros k Hk. unfold attached, get.
    rewrite lookup_insert_ne by done. rewrite defaultsDeep_lookup.
    destruct (supplied !! k) as [[]|], (defaultLoggerOptions env !! k);
      simpl; done. }
  split; [done|]. split.
  - unfold attached, get. by rewrite lookup_insert_eq.
  - intros k Hk.
    destruct (defaults_defined env k Hk) as (v & Hv & Hdef).
    rewrite Hfields by (destruct Hk as [->|[->| ->]]; done).
    case_decide; [|done].
    unfold get. by rewrite Hv.
Qed.

Lemma createLogger_fields_witness :
  (∀ k, k ≠ "namespace" →
     get (deref
            (createLogger Scenario.env (Posix.requiredBy "/app/src/main.js")
               (Some 0%nat) "T0" Later.holesOptions.2).1.2
            (optionsObject (Some 0%nat) Later.holesOptions.2).1) k
     = (if decide (get Later.holes k = VUndefined)
        then get (defaultLoggerOptions Scenario.env) k
        else get Later.holes k))
  ∧ get (deref
           (createLogger Scenario.env (Posix.requiredBy "/app/src/main.js")
              (Some 0%nat) "T0" Later.holesOptions.2).1.2
           (optionsObject (Some 0%nat) Later.holesOptions.2).1) "namespace"
    = VStr (derivedNamespace Scenario.env
              (Posix.requiredBy "/app/src/main.js") "/app/package.json"
              "my-app")
  ∧ (∀ k, k = "write" ∨ k = "timestamp" ∨ k = "logfile" →
       get (deref
              (createLogger Scenario.env
                 (Posix.requiredBy "/app/src/main.js") (Some 0%nat) "T0"
                 Later.holesOptions.2).1.2
              (optionsObject (Some 0%nat) Later.holesOptions.2).1) k
       ≠ VUndefined).
Proof.
  refine (createLogger_fields Scenario.env
            (Posix.requiredBy "/app/src/main.js") (Some 0%nat) "T0"
            Later.holesOptions.2 Later.holes "/app/package.json" "my-app"
            _ _).
  - vm_compute. reflexivity.
  - vm_compute. reflexivity.
Defined.

(** ** Registering one more logger *)

Lemma mapSet_new (k : string) (v : nat) (r : list (string * nat)) :
  k ∉ r.*1 → mapSet k v r = r ++ [(k, v)].
Proof.
  induction r as [|[k' v'] r IH]; intros Hk; [done|].
  cbn [mapSet]. rewrite fmap_cons in Hk. cbn [fst] in Hk.
  apply not_elem_of_cons in Hk as [Hne Hk].
  rewrite decide_False by done. by rewrite IH.
Qed.

Lemma namespacesList_same (σ σ' : Process) (r : list (string * nat)) :
  Forall (fun e => deref σ' e.2 = deref σ e.2) r →
  namespacesList σ' r = namespacesList σ r.
Proof.
  induction 1 as [|e r He Hr IH]; [done|].
  unfold namespacesList in *. simpl. by rewrite He, IH.
Qed.

Lemma namespacesList_app (σ : Process) (r r' : list (string * nat)) :
  namespacesList σ (r ++ r') = namespacesList σ r ++ namespacesList σ r'.
Proof. unfold namespacesList. apply map_app. Qed.

(** A logger created without options: the header, if it is due, is
    gated off by the default [write], so the call returns. *)
Lemma createLogger_fresh (env : Env) (m : LoggerModule) (now : string)
    (σ : Process) (manifest name : string) :
  readPkgUp env (requiringModuleFilePath env m) = Some (manifest, name) →
  createLogger env m None now σ
  = (mkModule (parentFilename m) (Some (length (heap σ))),
     setConfigurations
       (mapSet (requiringModuleFilePath env m) (length (heap σ))
          (registered σ))
       (store (length (heap σ)) (attached env m manifest name ∅)
          (alloc ∅ σ).2),
     Normal).
Proof.
  intros Hpkg.
  rewrite (createLogger_eq env m None now σ manifest name Hpkg).
  cbn [optionsObject].
  assert (deref (alloc ∅ σ).2 (alloc ∅ σ).1 = ∅) as Hd
    by apply (deref_alloc σ ∅).
  cbn [alloc fst snd] in *. rewrite Hd.
  destruct (length (registered σ) =? 1)%nat; [|done].
  unfold writeHeaderToFile.
  rewrite (writeMessageToFile_cases env _ (length (heap σ))) by done.
  assert (deref
            (setConfigurations (registered σ)
               (store (length (heap σ)) (attached env m manifest name ∅)
                  (mkProcess (heap σ ++ [∅]) (configurations σ) (files σ)
                     (console σ))))
            (length (heap σ))
          = attached env m manifest name ∅) as ->.
  { unfold deref, setConfigurations, store. simpl.
    rewrite list_lookup_insert_eq; [done|].
    rewrite length_app. simpl. lia. }
  done.
Qed.

(** X17. Registering one more logger, from a file that is new to the
    registry and without options, puts its namespace last in the list of
    namespaces and changes nothing before it: a caller whose namespace is
    registered keeps its namespace and its thread. *)
Theorem thread_stable_under_registration (env : Env) (m m' : LoggerModule)
    (c : nat) (r : list (string * nat)) (now : string) (lvl : level)
    (message : list arg) (elapsed : string) (σ : Process)
    (manifest name : string) :
  configuration m = Some c →
  (c < length (heap σ))%nat →
  configurations σ = Some r →
  Forall (fun e => (e.2 < length (heap σ))%nat) r →
  requiringModuleFilePath env m' ∉ r.*1 →
  readPkgUp env (requiringModuleFilePath env m') = Some (manifest, name) →
  get (deref σ c) "namespace" ∈ namespacesList σ r →
  (createLogger env m' None now σ).2 = Normal
  ∧ namespacesList (createLogger env m' None now σ).1.2
      (registered (createLogger env m' None now σ).1.2)
    = namespacesList σ r ++ [VStr (derivedNamespace env m' manifest name)]
  ∧ ∃ lm lm',
      newLoggerMessage env σ m lvl message elapsed = Return lm
      ∧ newLoggerMessage env (createLogger env m' None now σ).1.2 m lvl
          message elapsed = Return lm'
      ∧ namespace lm' = namespace lm
      ∧ thread lm' = thread lm.
Proof.
  intros Hc Hlt Hr Hin Hnew Hpkg Hreg.
  rewrite (createLogger_fresh env m' now σ manifest name Hpkg).
  set (o := length (heap σ)).
  set (σ' := setConfigurations _ _).
  assert (registered σ = r) as Hregd by (unfold registered; by rewrite Hr).
  assert (∀ l, (l < o)%nat → deref σ' l = deref σ l) as Hframe.
  { intros l Hl. unfold deref, σ'. simpl.
    rewrite list_lookup_insert_ne by lia. by rewrite lookup_app_l. }
  assert (deref σ' o = attached env m' manifest name ∅) as Hnewobj.
  { unfold deref, σ'. simpl. rewrite list_lookup_insert_eq; [done|].
    rewrite length_app. simpl. lia. }
  assert (configurations σ'
          = Some (r ++ [(requiringModuleFilePath env m', o)])) as Hr'.
  { unfold σ'. simpl. by rewrite Hregd, mapSet_new. }
  assert (namespacesList σ' (r ++ [(requiringModuleFilePath env m', o)])
          = namespacesList σ r
              ++ [VStr (derivedNamespace env m' manifest name)]) as Hlist.
  { rewrite namespacesList_app. f_equal.
    - apply namespacesList_same. eapply Forall_impl; [exact Hin|].
      intros e He. by apply Hframe.
    - unfold namespacesList. simpl. rewrite Hnewobj.
      unfold attached, get. by rewrite lookup_insert_eq. }
  split; [done|]. split.
  { cbn [fst snd]. unfold registered. by rewrite Hr'. }
  cbn [fst snd].
  destruct (newLoggerMessage_returns env σ m c r lvl message elapsed Hc Hr)
    as (lm & Hlm & Hns & Hthread).
  destruct (newLoggerMessage_returns env σ' m c _ lvl message elapsed Hc Hr')
    as (lm' & Hlm' & Hns' & Hthread').
  exists lm, lm'. split; [done|]. split; [done|].
  rewrite Hns, Hns', Hthread, Hthread', Hlist, (Hframe c Hlt).
  split; [done|]. by rewrite indexOf_app_elem.
Qed.

Lemma thread_stable_under_registration_witness :
  Later.after.2 = Normal
  ∧ namespacesList Later.after.1.2 (registered Later.after.1.2)
    = namespacesList Later.before [("/app/src/main.js", 0%nat)]
        ++ [VStr (derivedNamespace Scenario.env
                    (Posix.requiredBy "/app/node_modules/lodash/index.js")
                    "/app/node_modules/lodash/package.json" "lodash")]
  ∧ ∃ lm lm',
      newLoggerMessage Scenario.env Later.before Scenario.one.1.1 LLog
        [APrim (VStr "hello")] "" = Return lm
      ∧ newLoggerMessage Scenario.env Later.after.1.2 Scenario.one.1.1 LLog
          [APrim (VStr "hello")] "" = Return lm'
      ∧ namespace lm' = namespace lm
      ∧ thread lm' = thread lm.
Proof.
  refine (thread_stable_under_registration Scenario.env Scenario.one.1.1
            (Posix.requiredBy "/app/node_modules/lodash/index.js") 0
            [("/app/src/main.js", 0%nat)] "T1" LLog [APrim (VStr "hello")] ""
            Later.before "/app/node_modules/lodash/package.json" "lodash"
            _ _ _ _ _ _ _).
  - vm_compute. reflexivity.
  - vm_compute. lia.
  - vm_compute. reflexivity.
  - constructor; [vm_compute; lia|constructor].
  - vm_compute. intros Hin. apply list_elem_of_In in Hin.
    destruct Hin as [Heq|[]]. discriminate Heq.
  - vm_compute. reflexivity.
  - vm_compute. apply list_elem_of_here.
Defined.

(** ** The registry stays sound *)

Lemma runCalls_frame (env : Env) (m : LoggerModule) (calls : list logCall)
    (σ : Process) :
  heap (runCalls env m calls σ).1 = heap σ
  ∧ configurations (runCalls env m calls σ).1 = configurations σ.
Proof.
  revert σ. induction calls as [|call calls IH]; intros σ; [done|].
  simpl.
  destruct (logMethod_effect env m (callLevel call) (callArguments call)
              (callNow call) (callElapsed call) σ) as (Hh & Hc & _).
  destruct (logMethod _ _ _ _ _ _ _) as [σ' [[]|e]]; simpl in *; [|done].
  destruct (IH σ') as (IHh & IHc). by rewrite IHh, IHc.
Qed.

Lemma registryOk_grow (σ σ' : Process) (r : list (string * nat)) :
  (length (heap σ) ≤ length (heap σ'))%nat →
  registryOk σ r → registryOk σ' r.
Proof.
  intros Hle [Hnodup Hin]. split; [done|].
  eapply Forall_impl; [exact Hin|]. simpl. intros e He. lia.
Qed.

(** X18. Every operation keeps the registry sound: if its keys are
    distinct files and each entry refers to an object that exists, this
    still holds after a [createLogger] that returns (given that the
    options object passed exists), after [setConfiguration], and after any
    sequence of log calls. *)
Theorem registry_stays_sound (env : Env) (m : LoggerModule)
    (options : option nat) (now : string) (calls : list logCall)
    (σ : Process) (manifest name : string) :
  registryOk σ (registered σ) →
  (∀ o, options = Some o → (o < length (heap σ))%nat) →
  (readPkgUp env (requiringModuleFilePath env m) = Some (manifest, name) →
   (createLogger env m options now σ).2 = Normal →
   registryOk (createLogger env m options now σ).1.2
     (registered (createLogger env m options now σ).1.2))
  ∧ registryOk (setConfiguration m options σ).2
      (registered (setConfiguration m options σ).2)
  ∧ registryOk (runCalls env m calls σ).1
      (registered (runCalls env m calls σ).1).
Proof.
  intros Hok Hopt.
  assert ((optionsObject options σ).1
          < length (heap (optionsObject options σ).2)
          ∧ length (heap σ) ≤ length (heap (optionsObject options σ).2))%nat
    as [Hlt Hle].
  { destruct options as [o|]; simpl.
    - split; [by apply Hopt|done].
    - rewrite length_app. simpl. lia. }
  split; [|split].
  - intros Hpkg Hnormal.
    pose proof (createLogger_registry env m options now σ manifest name Hpkg
                  Hnormal) as Hr'.
    destruct (createLogger_stores env m options now σ manifest name Hpkg)
      as [_ Hheap].
    unfold registered at 1. rewrite Hr'. simpl.
    split; [apply mapSet_NoDup, Hok|].
    apply Forall_forall. intros e He.
    rewrite Hheap, length_insert.
    apply mapSet_values in He as [->|He]; [done|].
    destruct Hok as [_ Hin]. rewrite Forall_forall in Hin.
    specialize (Hin e He). simpl in Hin. lia.
  - unfold setConfiguration. fold (optionsObject options σ).
    destruct (optionsObject_frame options σ) as (Hc0 & _ & _).
    destruct (optionsObject options σ) as [o σ0]. simpl in *.
    assert (registryOk σ0 (registered σ)) as Hok0
      by (by apply (registryOk_grow σ)).
    destruct (configuration m); unfold registered in *; simpl;
      rewrite ?Hc0; [|done].
    eapply registryOk_grow; [|exact Hok0]. simpl. by rewrite length_insert.
  - destruct (runCalls_frame env m calls σ) as (Hh & Hc).
    unfold registered. rewrite Hc.
    eapply registryOk_grow; [|exact Hok]. by rewrite Hh.
Qed.

Lemma registry_stays_sound_witness :
  (readPkgUp Scenario.env
     (requiringModuleFilePath Scenario.env
        (Posix.requiredBy "/app/lib/main.js"))
   = Some ("/app/package.json", "my-app") →
   (createLogger Scenario.env (Posix.requiredBy "/app/lib/main.js") None "T1"
      Scenario.one.1.2).2 = Normal →
   registryOk
     (createLogger Scenario.env (Posix.requiredBy "/app/lib/main.js") None
        "T1" Scenario.one.1.2).1.2
     (registered
        (createLogger Scenario.env (Posix.requiredBy "/app/lib/main.js") None
           "T1" Scenario.one.1.2).1.2))
  ∧ registryOk
      (setConfiguration (Posix.requiredBy "/app/lib/main.js") None
         Scenario.one.1.2).2
      (registered
         (setConfiguration (Posix.requiredBy "/app/lib/main.js") None
            Scenario.one.1.2).2)
  ∧ registryOk
      (runCalls Scenario.env (Posix.requiredBy "/app/lib/main.js")
         Scenario.threeCalls Scenario.one.1.2).1
      (registered
         (runCalls Scenario.env (Posix.requiredBy "/app/lib/main.js")
            Scenario.threeCalls Scenario.one.1.2).1).
Proof.
  refine (registry_stays_sound Scenario.env
            (Posix.requiredBy "/app/lib/main.js") None "T1"
            Scenario.threeCalls Scenario.one.1.2 "/app/package.json" "my-app"
            _ _).
  - split.
    + vm_compute. apply NoDup_singleton.
    + constructor; [vm_compute; lia|constructor].
  - intros o Ho. discriminate Ho.
Defined.
